(** * EITViewer: the filtering and field decoding of [src/EITViewer.ts]

    The script registers two handlers on the table stream of the
    demultiplexing library: one for EIT sections, one for TOT sections.
    Both are embedded here as functions from the decoded table to the
    lines written to the logger.  The JavaScript built-ins the script
    calls ([Buffer.compare], [Array.prototype.includes], [parseInt],
    [String.prototype.split], [String.fromCharCode]) are given by their
    language semantics in [Module Js]. *)

From Stdlib Require Import ZArith List String Ascii Bool Lia.
From Stdlib.Strings Require Import Byte.
From Stdlib Require Import DecimalString DecimalZ.
Import ListNotations.

Local Open Scope string_scope.
Local Open Scope Z_scope.

(** ** JavaScript built-ins *)

Module Js.

(** Numbers that hold an identifier: an integer, or [NaN] (what
    [parseInt] answers when it reads no digit).  Integers are exact below
    2^53, far above the 16-bit identifiers of the tables. *)
Inductive number : Type :=
| NaN
| Int (z : Z).

(** SameValueZero of a list element with an integer: [NaN] equals no
    integer. *)
Definition sameValueZero (x : number) (z : Z) : bool :=
  match x with
  | NaN => false
  | Int y => y =? z
  end.

(** [xs.includes(z)] on an array of numbers. *)
Definition includes (xs : list number) (z : Z) : bool :=
  existsb (fun x => sameValueZero x z) xs.

(** [xs.includes(z)] on an array of integers. *)
Definition includesZ (xs : list Z) (z : Z) : bool :=
  existsb (fun x => x =? z) xs.

(** [xs.includes(s)] on an array of strings. *)
Definition includesStr (xs : list string) (s : string) : bool :=
  existsb (fun x => String.eqb x s) xs.

(** [a.compare(b)] on Buffers: -1, 0 or 1, bytewise then by length. *)
Fixpoint Buffer_compare (a b : list byte) : Z :=
  match a, b with
  | [], [] => 0
  | [], _ :: _ => -1
  | _ :: _, [] => 1
  | x :: a', y :: b' =>
      if (Byte.to_N x <? Byte.to_N y)%N then -1
      else if (Byte.to_N y <? Byte.to_N x)%N then 1
      else Buffer_compare a' b'
  end.

(** [s.split(',')]: never empty, the empty string gives one empty entry. *)
Fixpoint split_comma (s : string) : list string :=
  match s with
  | EmptyString => [EmptyString]
  | String c rest =>
      if Ascii.eqb c "," then EmptyString :: split_comma rest
      else match split_comma rest with
           | h :: t => String c h :: t
           | [] => [String c EmptyString]
           end
  end.

(** White space and line terminators that [parseInt] and the conversion
    of a string to a number skip (code units below 256). *)
Definition isStrWhiteSpaceChar (c : ascii) : bool :=
  let n := N_of_ascii c in
  ((n =? 9) || (n =? 10) || (n =? 11) || (n =? 12) || (n =? 13)
   || (n =? 32) || (n =? 160))%N.

Fixpoint trimStart (s : string) : string :=
  match s with
  | EmptyString => EmptyString
  | String c rest => if isStrWhiteSpaceChar c then trimStart rest else s
  end.

(** Value of a digit in a radix up to 36. *)
Definition digitValue (c : ascii) : option Z :=
  let n := Z.of_N (N_of_ascii c) in
  if (48 <=? n) && (n <=? 57) then Some (n - 48)
  else if (97 <=? n) && (n <=? 122) then Some (n - 97 + 10)
  else if (65 <=? n) && (n <=? 90) then Some (n - 65 + 10)
  else None.

(** The longest prefix of radix-[R] digits, as an integer; [acc] is
    [None] until a digit has been read. *)
Fixpoint parseDigits (R : Z) (s : string) (acc : option Z) : option Z :=
  match s with
  | EmptyString => acc
  | String c rest =>
      match digitValue c with
      | Some d =>
          if d <? R
          then parseDigits R rest
                 (Some (match acc with Some a => a * R + d | None => d end))
          else acc
      | None => acc
      end
  end.

(** [parseInt(s)] without a radix: leading white space, a sign, a [0x]
    prefix, then as many digits as there are; [NaN] when there is none.
    The answer is the integer read; the script holds it in a double, so
    the two agree for answers below 2^53 in size. *)
Definition parseInt (s : string) : number :=
  let s1 := trimStart s in
  let '(sign, s2) :=
    match s1 with
    | String "-" r => (-1, r)
    | String "+" r => (1, r)
    | _ => (1, s1)
    end in
  let '(R, s3) :=
    match s2 with
    | String "0" (String "x" r) => (16, r)
    | String "0" (String "X" r) => (16, r)
    | _ => (10, s2)
    end in
  match parseDigits R s3 None with
  | None => NaN
  | Some m => Int (sign * m)
  end.

(** An argument of [String.fromCharCode]: a number, or one of the
    one-character strings that spreading a string yields. *)
Inductive arg : Type :=
| ANum (n : Z)
| AChar (c : ascii).

(** ToNumber of an argument, [None] for NaN.  A one-character string is a
    number only when it is a decimal digit, and 0 when it is white
    space. *)
Definition ToNumber (a : arg) : option Z :=
  match a with
  | ANum n => Some n
  | AChar c =>
      if isStrWhiteSpaceChar c then Some 0
      else let n := Z.of_N (N_of_ascii c) in
           if (48 <=? n) && (n <=? 57) then Some (n - 48) else None
  end.

(** ToUint16: NaN becomes 0, integers wrap modulo 2^16. *)
Definition ToUint16 (n : option Z) : Z :=
  match n with
  | None => 0
  | Some z => z mod 65536
  end.

(** [String.fromCharCode(...args)].  The strings of this development hold
    code units below 256, which is all bytes and one-character strings
    can give (lemma [charCode_small]). *)
Definition String_fromCharCode (args : list arg) : string :=
  string_of_list_ascii
    (map (fun a => ascii_of_N (Z.to_N (ToUint16 (ToNumber a)))) args).

(** A number in a template literal (integers only). *)
Definition Number_toString (z : Z) : string :=
  NilZero.string_of_int (Z.to_int z).

End Js.

(** ** The time fields of the demultiplexing library *)

Module TsDate.

(** Modelled from the spec: [TsDate] is a class of the demultiplexing
    library (@chinachu/aribts), whose code is not in this repository.
    The spec gives its encoding: a BCD byte holds one decimal digit in
    each nibble. *)
Definition bcd (b : byte) : Z :=
  let n := Z.of_N (Byte.to_N b) in
  Z.shiftr n 4 * 10 + Z.land n 15.

(** Modelled from the spec: [new TsDate(buffer).decodeTime()], the 24-bit
    BCD hour/minute/second triple of a three-byte field. *)
Definition decodeTime (buffer : list byte) : Z * Z * Z :=
  (bcd (nth 0 buffer x00), bcd (nth 1 buffer x00), bcd (nth 2 buffer x00)).

(** Modelled from the spec: the date-time a field decodes to, the day as
    a Modified Julian Day number and the time of day; the library's own
    value is a [Date] object built from them. *)
Record datetime : Type := {
  mjd : Z;
  hour : Z;
  minute : Z;
  second : Z
}.

(** Modelled from the spec: [new TsDate(buffer).decode()], the 40-bit
    encoding of a five-byte field: a 16-bit big-endian Modified Julian
    Day followed by the 24-bit BCD time of day. *)
Definition decode (buffer : list byte) : datetime :=
  let b i := Z.of_N (Byte.to_N (nth i buffer x00)) in
  let '(h, m, s) := decodeTime (skipn 2 buffer) in
  {| mjd := Z.lor (Z.shiftl (b 0%nat) 8) (b 1%nat);
     hour := h; minute := m; second := s |}.

End TsDate.

(** ** Data model: the tables as the demultiplexer delivers them *)

(** An item of an extended event descriptor. *)
Record item : Type := {
  item_description_char : list byte;
  item_char : list byte
}.

(** A descriptor object.  [None] is a property the object does not have:
    the handler asks ['ISO_639_language_code' in descriptor] and
    ['text_char' in descriptor]; [event_name_char] comes with tag 0x4D and
    [items] with tag 0x4E. *)
Record descriptor : Type := {
  descriptor_raw : list byte;
  descriptor_tag : Z;
  ISO_639_language_code : option (list byte);
  text_char : option (list byte);
  event_name_char : option (list byte);
  items : option (list item)
}.

(** An event; every slot of [descriptors] holds a descriptor object. *)
Record event : Type := {
  event_id : Z;
  start_time : list byte;
  duration : list byte;
  descriptors : list descriptor
}.

(** An EIT section; [events] is [None] when the property is null or
    undefined. *)
Record eit : Type := {
  eit_raw : list byte;
  table_id : Z;
  service_id : Z;
  section_number : Z;
  events : option (list event)
}.

Record tot : Type := {
  tot_raw : list byte;
  tot_table_id : Z;
  JST_time : list byte
}.

(** ** Data model: the objects after formatting *)

(** A property the handler overwrites in place: a Buffer as delivered, or
    the string stored over it. *)
Inductive property : Type :=
| Buffer (bytes : list byte)
| Text (s : string).

(** A formatted time field. *)
Inductive jsvalue : Type :=
| Infinity
| JString (s : string)
| JNumber (n : Z).

Record formatted_item : Type := {
  f_item_description_char : property;
  f_item_char : property
}.

(** The descriptor after the loop body: [_raw] is deleted, the other
    properties hold what the handler left in them. *)
Record formatted_descriptor : Type := {
  f_descriptor_tag : Z;
  f_ISO_639_language_code : option property;
  f_text_char : option property;
  f_event_name_char : option property;
  f_items : option (list formatted_item)
}.

Record formatted_event : Type := {
  f_event_id : Z;
  f_start_time : jsvalue;
  f_duration : jsvalue;
  f_descriptors : list formatted_descriptor
}.

(** [formattedEit]: the shallow copy of the section without [_raw]. *)
Record formatted_eit : Type := {
  f_table_id : Z;
  f_service_id : Z;
  f_section_number : Z;
  f_events : list formatted_event
}.

Record formatted_tot : Type := {
  f_tot_table_id : Z;
  f_JST_time : string
}.

(** What the handlers hand to the logger: [logger.log] of a line and
    [logger.dir] of a formatted table. *)
Inductive output : Type :=
| Log (line : string)
| DirEit (t : formatted_eit)
| DirTot (t : formatted_tot).

(** A handler returns, or stops with an uncaught [TypeError]. *)
Inductive result (A : Type) : Type :=
| Ok (a : A)
| TypeError.
Arguments Ok {A} a.
Arguments TypeError {A}.

Definition bind {A B : Type} (r : result A) (k : A -> result B) : result B :=
  match r with
  | Ok a => k a
  | TypeError => TypeError
  end.

Notation "x <- r ;; k" := (bind r (fun x => k))
  (at level 61, r at next level, right associativity).

(** [for (const x of xs)] with a body that may throw. *)
Fixpoint for_of {A B : Type} (body : A -> result B) (xs : list A)
  : result (list B) :=
  match xs with
  | [] => Ok []
  | x :: rest =>
      y <- body x ;;
      ys <- for_of body rest ;;
      Ok (y :: ys)
  end.

(** What reached the logger: nothing when the handler threw, since it logs
    only after its loop. *)
Definition logged (r : result (list output)) : list output :=
  match r with
  | Ok out => out
  | TypeError => []
  end.

(** ** Constants and helpers of the script *)

Definition UNKNOWN_START_TIME : list byte := [xff; xff; xff; xff; xff].
Definition UNKNOWN_DURATION : list byte := [xff; xff; xff].

(** [range(s, t, a)]: [|s - t|] slots, slot [i] holding [min(s,t) + i*a],
    of which those below [max(s,t)] are kept.  The script runs it on
    doubles and [Array(n)] refuses a length of 2^32 or more; the integers
    here are the code on arguments within those limits, as at its one
    call, [range(0x50, 0x60)]. *)
Definition range (s t a : Z) : list Z :=
  filter (fun x => x <? Z.max s t)
    (map (fun i => Z.min s t + Z.of_nat i * a) (seq 0 (Z.abs_nat (s - t)))).

(** The rule printed around every record. *)
Definition separator : string :=
  "================================================================================".

(** ** Startup: command line to filter configuration *)

(** [program.opts()]: [None] is an option that was not given. *)
Record options : Type := {
  input : option string;
  outputLog : option string;
  eitTypes : option string;
  serviceIds : option string;
  eventIds : option string
}.

(** The three allow-lists; an empty list filters nothing. *)
Record config : Type := {
  filterEitTypes : list string;
  filterServiceIds : list Js.number;
  filterEventIds : list Js.number
}.

Inductive startup_result : Type :=
| ConfigError
| Started (c : config).

(** Lines 40-71.  [--input] is declared with [requiredOption], so parsing
    the command line fails without it; each list option is split on commas
    and the identifier lists are mapped through [parseInt]. *)
Definition startup (o : options) : startup_result :=
  match input o with
  | None => ConfigError
  | Some _ =>
      Started
        {| filterEitTypes :=
             match eitTypes o with
             | Some s => Js.split_comma s
             | None => []
             end;
           filterServiceIds :=
             match serviceIds o with
             | Some s => map Js.parseInt (Js.split_comma s)
             | None => []
             end;
           filterEventIds :=
             match eventIds o with
             | Some s => map Js.parseInt (Js.split_comma s)
             | None => []
             end |}
  end.

(** ** The handlers *)

(** [...p]: the elements a spread of the property iterates over. *)
Definition spread (p : property) : list Js.arg :=
  match p with
  | Buffer bs => map (fun b => Js.ANum (Z.of_N (Byte.to_N b))) bs
  | Text s => map Js.AChar (list_ascii_of_string s)
  end.

(** Reading a property the handler takes for granted under tag 0x4E:
    spreading or iterating [undefined] throws. *)
Definition required {A : Type} (p : option A) : result A :=
  match p with
  | Some a => Ok a
  | None => TypeError
  end.

(** The type of the section, lines 95-98. *)
Definition eitType (e : eit) : string :=
  if table_id e =? 0x4E
  then (if section_number e =? 0 then "present" else "following")
  else "schedule".

(** The banner line of an EIT record, line 159. *)
Definition banner (e : eit) : string :=
  "EIT (Event Information Table) [" ++ eitType e ++ "] [service_id: "
    ++ Js.Number_toString (service_id e) ++ "]".

Section Presenter.

(** [new TsChar(buffer).decode()], the ARIB STD-B24 text decoder of the
    demultiplexing library. *)
Variable TsChar_decode : list byte -> string.

(** [dayjs(date).local().format()] of the date library, on the date-time
    that [TsDate] decoded. *)
Variable dayjs_local_format : TsDate.datetime -> string.

(** Lines 111-115. *)
Definition format_start_time (raw : list byte) : jsvalue :=
  if Js.Buffer_compare UNKNOWN_START_TIME raw =? 0 then Infinity
  else JString (dayjs_local_format (TsDate.decode raw)).

(** Lines 118-123. *)
Definition format_duration (raw : list byte) : jsvalue :=
  if Js.Buffer_compare UNKNOWN_DURATION raw =? 0 then Infinity
  else let '(h, m, s) := TsDate.decodeTime raw in
       JNumber (h * 3600 + m * 60 + s).

(** [new TsChar(v).decode()] on a property that may be missing: the
    decoder reads the bytes it is given, and with no buffer to read it
    returns the empty string. *)
Definition TsChar_decode_property (v : option (list byte)) : string :=
  match v with
  | Some bs => TsChar_decode bs
  | None => EmptyString
  end.

(** Lines 145-146. *)
Definition format_item (i : item) : formatted_item :=
  {| f_item_description_char := Text (TsChar_decode (item_description_char i));
     f_item_char := Text (TsChar_decode (item_char i)) |}.

(** An item the handler did not touch. *)
Definition untouched_item (i : item) : formatted_item :=
  {| f_item_description_char := Buffer (item_description_char i);
     f_item_char := Buffer (item_char i) |}.

(** The body of the descriptor loop, lines 126-149.  [lang] and [text]
    are the properties after the two [in] tests; the [switch] then works
    on the object as those assignments left it. *)
Definition format_descriptor (d : descriptor) : result formatted_descriptor :=
  let lang :=
    match ISO_639_language_code d with
    | Some bs => Some (Text (Js.String_fromCharCode (spread (Buffer bs))))
    | None => None
    end in
  let text :=
    match text_char d with
    | Some bs => Some (Text (TsChar_decode bs))
    | None => None
    end in
  if descriptor_tag d =? 0x4D then
    Ok {| f_descriptor_tag := descriptor_tag d;
          f_ISO_639_language_code := lang;
          f_text_char := text;
          f_event_name_char :=
            Some (Text (TsChar_decode_property (event_name_char d)));
          f_items := option_map (map untouched_item) (items d) |}
  else if descriptor_tag d =? 0x4E then
    code <- required lang ;;
    its <- required (items d) ;;
    Ok {| f_descriptor_tag := descriptor_tag d;
          f_ISO_639_language_code :=
            Some (Text (Js.String_fromCharCode (spread code)));
          f_text_char := text;
          f_event_name_char := option_map Buffer (event_name_char d);
          f_items := Some (map format_item its) |}
  else
    Ok {| f_descriptor_tag := descriptor_tag d;
          f_ISO_639_language_code := lang;
          f_text_char := text;
          f_event_name_char := option_map Buffer (event_name_char d);
          f_items := option_map (map untouched_item) (items d) |}.

(** The body of the event loop without its first line, lines 110-150. *)
Definition format_event (ev : event) : result formatted_event :=
  ds <- for_of format_descriptor (descriptors ev) ;;
  Ok {| f_event_id := event_id ev;
        f_start_time := format_start_time (start_time ev);
        f_duration := format_duration (duration ev);
        f_descriptors := ds |}.

(** The event loop, lines 104-151, threading [isTargetEventDetected]. *)
Fixpoint format_events (cfg : config) (evs : list event)
    (isTargetEventDetected : bool)
  : result (list formatted_event * bool) :=
  match evs with
  | [] => Ok ([], isTargetEventDetected)
  | ev :: rest =>
      let detected :=
        if (0 <? Z.of_nat (List.length (filterEventIds cfg)))
           && Js.includes (filterEventIds cfg) (event_id ev)
        then true else isTargetEventDetected in
      fev <- format_event ev ;;
      r <- format_events cfg rest detected ;;
      Ok (fev :: fst r, snd r)
  end.

(** The part of the EIT handler after the four early returns,
    lines 101-162. *)
Definition format_and_print (cfg : config) (e : eit) (evs : list event)
  : result (list output) :=
  r <- format_events cfg evs false ;;
  let formattedEit :=
    {| f_table_id := table_id e;
       f_service_id := service_id e;
       f_section_number := section_number e;
       f_events := fst r |} in
  if (0 <? Z.of_nat (List.length (filterEventIds cfg)))
     && (Z.of_nat (List.length (fst r)) =? 0)
  then Ok []
  else if (0 <? Z.of_nat (List.length (filterEventIds cfg))) && negb (snd r)
  then Ok []
  else Ok [Log (banner e); Log separator; DirEit formattedEit; Log separator].

(** The type filter, line 99, and what follows it. *)
Definition after_service_filter (cfg : config) (e : eit) (evs : list event)
  : result (list output) :=
  if (0 <? Z.of_nat (List.length (filterEitTypes cfg)))
     && negb (Js.includesStr (filterEitTypes cfg) (eitType e))
  then Ok []
  else format_and_print cfg e evs.

(** The service filter, line 92, and what follows it. *)
Definition after_table_id_check (cfg : config) (e : eit) (evs : list event)
  : result (list output) :=
  if (0 <? Z.of_nat (List.length (filterServiceIds cfg)))
     && negb (Js.includes (filterServiceIds cfg) (service_id e))
  then Ok []
  else after_service_filter cfg e evs.

(** The table-id check, line 89, and what follows it. *)
Definition after_events_check (cfg : config) (e : eit) (evs : list event)
  : result (list output) :=
  if negb (Js.includesZ (range 0x50 0x60 1) (table_id e))
     && negb (table_id e =? 0x4E)
  then Ok []
  else after_table_id_check cfg e evs.

(** [tsStream.on('eit', ...)], lines 83-163. *)
Definition on_eit (cfg : config) (e : eit) : result (list output) :=
  match events e with
  | None => Ok []
  | Some evs => after_events_check cfg e evs
  end.

(** [tsStream.on('tot', ...)], lines 167-178.  It reads no filter. *)
Definition on_tot (t : tot) : list output :=
  let formattedTot :=
    {| f_tot_table_id := tot_table_id t;
       f_JST_time := dayjs_local_format (TsDate.decode (JST_time t)) |} in
  [Log "TOT (Time Offset Table)"; Log separator; DirTot formattedTot;
   Log separator].

(** A table event of the stream. *)
Inductive table : Type :=
| EIT (e : eit)
| TOT (t : tot).

Definition handle (cfg : config) (t : table) : result (list output) :=
  match t with
  | EIT e => on_eit cfg e
  | TOT t => Ok (on_tot t)
  end.

(** The handlers run one table after the other; an uncaught error ends
    the process. *)
Fixpoint process (cfg : config) (ts : list table) : list output :=
  match ts with
  | [] => []
  | t :: rest =>
      match handle cfg t with
      | Ok out => out ++ process cfg rest
      | TypeError => []
      end
  end.

(** The whole script: [None] when startup fails, else the rule of
    line 80 followed by what the handlers print. *)
Definition main (o : options) (ts : list table) : option (list output) :=
  match startup o with
  | ConfigError => None
  | Started cfg => Some (Log separator :: process cfg ts)
  end.

End Presenter.

(** ** Conditions used in the statements *)

(** The section is an EIT of the stream itself. *)
Definition self_stream (e : eit) : Prop :=
  0x50 <= table_id e < 0x60 \/ table_id e = 0x4E.

(** No service-id allow-list, or the service is in it. *)
Definition service_allowed (cfg : config) (e : eit) : Prop :=
  filterServiceIds cfg = [] \/ In (Js.Int (service_id e)) (filterServiceIds cfg).

(** No type allow-list, or the type of the section is in it. *)
Definition type_allowed (cfg : config) (e : eit) : Prop :=
  filterEitTypes cfg = [] \/ In (eitType e) (filterEitTypes cfg).

(** The descriptor has the properties its tag promises: the event name
    of a short event descriptor, the language code and the items of an
    extended event descriptor. *)
Definition has_required_properties (d : descriptor) : bool :=
  (if descriptor_tag d =? 0x4D
   then match event_name_char d with Some _ => true | None => false end
   else true)
  && (if descriptor_tag d =? 0x4E
      then match ISO_639_language_code d, items d with
           | Some _, Some _ => true
           | _, _ => false
           end
      else true).

Definition well_formed_event (ev : event) : bool :=
  forallb has_required_properties (descriptors ev).

(** An entry of an identifier list in which [parseInt] reads no number. *)
Definition non_numeric (entry : string) : bool :=
  match Js.parseInt entry with
  | Js.NaN => true
  | Js.Int _ => false
  end.

(** Some entry of the service-id or event-id option is not a number. *)
Definition has_non_numeric_entry (o : options) : bool :=
  match serviceIds o with
  | Some s => existsb non_numeric (Js.split_comma s)
  | None => false
  end
  || match eventIds o with
     | Some s => existsb non_numeric (Js.split_comma s)
     | None => false
     end.

(** Whether the event loop leaves [isTargetEventDetected] set: it was set
    before, or the allow-list is not empty and holds the id of an event. *)
Definition detected (cfg : config) (evs : list event) (before : bool) : bool :=
  before
  || ((0 <? Z.of_nat (List.length (filterEventIds cfg)))
      && existsb (fun ev => Js.includes (filterEventIds cfg) (event_id ev)) evs).

(** The record the handler dumps for a section whose events formatted
    to [fevs]. *)
Definition formattedEit (e : eit) (fevs : list formatted_event) : formatted_eit :=
  {| f_table_id := table_id e;
     f_service_id := service_id e;
     f_section_number := section_number e;
     f_events := fevs |}.

(** The four outputs of a printed EIT record. *)
Definition printed (e : eit) (fevs : list formatted_event) : list output :=
  [Log (banner e); Log separator; DirEit (formattedEit e fevs); Log separator].

(** ** Sample tables and configurations *)

(** Stand-ins for the two library calls: a decoder for text that is plain
    ASCII, and a formatter that prints the day number and the time. *)
Definition ascii_decoder (bs : list byte) : string := string_of_list_byte bs.

Definition plain_format (d : TsDate.datetime) : string :=
  Js.Number_toString (TsDate.mjd d) ++ "T" ++ Js.Number_toString (TsDate.hour d)
    ++ ":" ++ Js.Number_toString (TsDate.minute d)
    ++ ":" ++ Js.Number_toString (TsDate.second d).

(** A short event descriptor and an extended event descriptor, both with
    the language code 4A 50 4E. *)
Definition short_event_JPN : descriptor :=
  {| descriptor_raw := [x4d];
     descriptor_tag := 0x4D;
     ISO_639_language_code := Some [x4a; x50; x4e];
     text_char := Some [x41];
     event_name_char := Some [x42];
     items := None |}.

Definition extended_event_JPN : descriptor :=
  {| descriptor_raw := [x4e];
     descriptor_tag := 0x4E;
     ISO_639_language_code := Some [x4a; x50; x4e];
     text_char := Some [x41];
     event_name_char := None;
     items := Some [] |}.

(** Event 200 starts on 1993-10-13 (MJD 0xC079) at 12:45:00 and lasts
    01:30:00; event 100 has neither a start time nor a duration yet. *)
Definition event_200 : event :=
  {| event_id := 200;
     start_time := [xc0; x79; x12; x45; x00];
     duration := [x01; x30; x00];
     descriptors := [short_event_JPN] |}.

Definition event_100 : event :=
  {| event_id := 100;
     start_time := UNKNOWN_START_TIME;
     duration := UNKNOWN_DURATION;
     descriptors := [] |}.

Definition eit_with (tid sn : Z) (evs : option (list event)) : eit :=
  {| eit_raw := [];
     table_id := tid;
     service_id := 1024;
     section_number := sn;
     events := evs |}.

Definition tot_sample : tot :=
  {| tot_raw := []; tot_table_id := 0x73;
     JST_time := [xc0; x79; x12; x45; x00] |}.

Definition no_filter : config :=
  {| filterEitTypes := []; filterServiceIds := []; filterEventIds := [] |}.

Definition only_event_100 : config :=
  {| filterEitTypes := []; filterServiceIds := [];
     filterEventIds := [Js.Int 100] |}.

Definition only_present : config :=
  {| filterEitTypes := ["present"]; filterServiceIds := [];
     filterEventIds := [] |}.

Definition only_services_2048_4096 : config :=
  {| filterEitTypes := []; filterServiceIds := [Js.Int 2048; Js.Int 4096];
     filterEventIds := [] |}.

(** Event 300 carries an extended event descriptor. *)
Definition event_300 : event :=
  {| event_id := 300;
     start_time := [xc0; x79; x12; x45; x00];
     duration := [x01; x30; x00];
     descriptors := [extended_event_JPN] |}.

(** Three characters of code 0. *)
Definition three_NUL : string :=
  String Ascii.zero (String Ascii.zero (String Ascii.zero EmptyString)).

(** The present/following section with events 200 and 100, and what its
    events format to under the stand-in decoders. *)
Definition eit_200_100 : eit := eit_with 0x4E 0 (Some [event_200; event_100]).

Definition formatted_200_100 : list formatted_event :=
  Eval vm_compute in
    match for_of (format_event ascii_decoder plain_format)
            [event_200; event_100] with
    | Ok fevs => fevs
    | TypeError => []
    end.

(** The section with event 300 alone. *)
Definition eit_300 : eit := eit_with 0x4E 0 (Some [event_300]).





(** [--input in.ts --service-ids abc]. *)
Definition options_abc : options :=
  {| input := Some "in.ts"; outputLog := None; eitTypes := None;
     serviceIds := Some "abc"; eventIds := None |}.

(** ** Further notions for the statements *)

(** The arguments on which [range] computes with exact integers and
    returns: [Array(n)] accepts a length below 2^32 and throws beyond it,
    and the bounds, the step and every [min + i*a] stay below 2^53 in
    size, where a double holds every integer. *)
Definition range_arguments (s t a : Z) : Prop :=
  Z.abs (s - t) < 4294967296
  /\ Z.abs s < 4503599627370496
  /\ Z.abs t < 4503599627370496
  /\ Z.abs a <= 1048576.

(** An integer below 2^53 in size: a double holds it exactly, and it
    prints in plain decimal. *)
Definition safe_integer (z : Z) : Prop := Z.abs z < 9007199254740992.

(** An option value as it is typed: the entries with a comma between
    them. *)
Fixpoint comma_separated (entries : list string) : string :=
  match entries with
  | [] => EmptyString
  | [x] => x
  | x :: rest => x ++ "," ++ comma_separated rest
  end.

Definition has_comma (s : string) : bool :=
  existsb (fun c => Ascii.eqb c ",") (list_ascii_of_string s).

Definition is_decimal_digit (c : ascii) : bool :=
  let n := Z.of_N (N_of_ascii c) in (48 <=? n) && (n <=? 57).

(** What may follow the digits of a decimal number without changing what
    [parseInt] reads: nothing, or text that starts with neither a decimal
    digit nor the [x] of a hexadecimal prefix. *)
Definition ends_number (suffix : string) : bool :=
  match suffix with
  | EmptyString => true
  | String c _ =>
      negb (is_decimal_digit c) && negb (Ascii.eqb c "x")
      && negb (Ascii.eqb c "X")
  end.

(** [parseInt] after the sign has been read. *)
Definition parseInt_unsigned (sign : Z) (s2 : string) : Js.number :=
  let '(R, s3) :=
    match s2 with
    | String "0" (String "x" r) => (16, r)
    | String "0" (String "X" r) => (16, r)
    | _ => (10, s2)
    end in
  match Js.parseDigits R s3 None with
  | None => Js.NaN
  | Some m => Js.Int (sign * m)
  end.

(** Evaluates the test [parseDigits] makes on a literal digit. *)
Ltac read_digit :=
  cbn [NilEmpty.string_of_uint append Js.parseDigits
       Pos.of_uint_acc Pos.of_uint];
  match goal with
  | |- context [Js.digitValue ?c] =>
      let v := eval vm_compute in (Js.digitValue c) in
      change (Js.digitValue c) with v
  end;
  cbv iota beta;
  match goal with
  | |- context [?d <? 10] =>
      let v := eval vm_compute in (d <? 10) in
      change (d <? 10) with v
  end;
  cbv iota beta.

(** The TOT sections of a stream, in order. *)
Fixpoint tots (ts : list table) : list tot :=
  match ts with
  | [] => []
  | TOT t :: rest => t :: tots rest
  | EIT _ :: rest => tots rest
  end.

(** What the second conversion of a language code makes of a byte: a digit
    1 to 9 becomes the character with that small code, anything else the
    character of code 0. *)
Definition twice_converted (b : byte) : ascii :=
  let n := Byte.to_N b in
  if ((49 <=? n) && (n <=? 57))%N then ascii_of_N (n - 48) else Ascii.zero.

(** The three type names. *)
Definition type_names : list string := ["present"; "following"; "schedule"].

(** An extended event descriptor that lost its item list, an event that
    carries it, and the section with that event alone. *)
Definition extended_without_items : descriptor :=
  {| descriptor_raw := [x4e];
     descriptor_tag := 0x4E;
     ISO_639_language_code := Some [x6a; x70; x6e];
     text_char := None;
     event_name_char := None;
     items := None |}.

Definition event_400 : event :=
  {| event_id := 400;
     start_time := UNKNOWN_START_TIME;
     duration := UNKNOWN_DURATION;
     descriptors := [extended_without_items] |}.

Definition eit_400 : eit := eit_with 0x4E 0 (Some [event_400]).

(** The event-id filter keeps the section: there is no allow-list, or some
    event of the section is in it. *)
Definition event_allowed (cfg : config) (evs : list event) : Prop :=
  filterEventIds cfg = []
  \/ exists ev, In ev evs /\ In (Js.Int (event_id ev)) (filterEventIds cfg).

(** [--input in.ts --service-ids 2048,4096]. *)
Definition options_2048_4096 : options :=
  {| input := Some "in.ts"; outputLog := None; eitTypes := None;
     serviceIds := Some "2048,4096"; eventIds := None |}.

(** [--input in.ts --service-ids] with an empty value. *)
Definition options_empty_service : options :=
  {| input := Some "in.ts"; outputLog := None; eitTypes := None;
     serviceIds := Some ""; eventIds := None |}.

(** ** Facts about the built-ins *)

Lemma sameValueZero_true (x : Js.number) (z : Z) :
  Js.sameValueZero x z = true <-> x = Js.Int z.
Proof.
  destruct x as [|y]; simpl.
  - split; discriminate.
  - rewrite Z.eqb_eq. split; [intros ->; reflexivity | intros [= ->]; reflexivity].
Qed.

Lemma includes_true (xs : list Js.number) (z : Z) :
  Js.includes xs z = true <-> In (Js.Int z) xs.
Proof.
  unfold Js.includes. rewrite existsb_exists. split.
  - intros [x [Hin Hx]]. apply sameValueZero_true in Hx. now subst.
  - intros Hin. exists (Js.Int z). split; [assumption|].
    now apply sameValueZero_true.
Qed.

Lemma includes_false (xs : list Js.number) (z : Z) :
  Js.includes xs z = false <-> ~ In (Js.Int z) xs.
Proof.
  rewrite <- includes_true. destruct (Js.includes xs z); split; congruence.
Qed.

Lemma includesStr_true (xs : list string) (s : string) :
  Js.includesStr xs s = true <-> In s xs.
Proof.
  unfold Js.includesStr. rewrite existsb_exists. split.
  - intros [x [Hin Hx]]. apply String.eqb_eq in Hx. now subst.
  - intros Hin. exists s. split; [assumption | apply String.eqb_refl].
Qed.

Lemma includesStr_false (xs : list string) (s : string) :
  Js.includesStr xs s = false <-> ~ In s xs.
Proof.
  rewrite <- includesStr_true. destruct (Js.includesStr xs s); split; congruence.
Qed.

Lemma includesZ_true (xs : list Z) (z : Z) :
  Js.includesZ xs z = true <-> In z xs.
Proof.
  unfold Js.includesZ. rewrite existsb_exists. split.
  - intros [x [Hin Hx]]. apply Z.eqb_eq in Hx. now subst.
  - intros Hin. exists z. split; [assumption | apply Z.eqb_refl].
Qed.

(** A list has positive length exactly when it is not empty. *)
Lemma length_positive {A : Type} (xs : list A) :
  (0 <? Z.of_nat (List.length xs)) = true <-> xs <> [].
Proof.
  destruct xs as [|x xs]; simpl.
  - split; [discriminate | congruence].
  - split; [discriminate | intros _; apply Z.ltb_lt; lia].
Qed.

Lemma length_positive_nil {A : Type} :
  (0 <? Z.of_nat (List.length (@nil A))) = false.
Proof. reflexivity. Qed.

(** With step 1, [range] lists the integers between its bounds. *)
Lemma range_step1 (s t x : Z) :
  In x (range s t 1) <-> Z.min s t <= x < Z.max s t.
Proof.
  unfold range. rewrite filter_In, in_map_iff, Z.ltb_lt. split.
  - intros [[i [Hx Hi]] Hlt]. apply in_seq in Hi. lia.
  - intros [Hlo Hhi]. split; [|assumption].
    exists (Z.to_nat (x - Z.min s t)). split; [lia|].
    apply in_seq. lia.
Qed.

(** The table-id test of the handler. *)
Lemma table_id_check (z : Z) :
  negb (Js.includesZ (range 0x50 0x60 1) z) && negb (z =? 0x4E) = false
  <-> (0x50 <= z < 0x60 \/ z = 0x4E).
Proof.
  rewrite andb_false_iff, !negb_false_iff, includesZ_true, range_step1, Z.eqb_eq.
  change (Z.min 0x50 0x60) with 0x50. change (Z.max 0x50 0x60) with 0x60.
  tauto.
Qed.

Lemma to_N_inj (x y : byte) : Byte.to_N x = Byte.to_N y -> x = y.
Proof.
  intros H. pose proof (Byte.of_to_N x) as Hx. rewrite H, Byte.of_to_N in Hx.
  now injection Hx.
Qed.

(** [compare] answers 0 exactly on equal byte sequences. *)
Lemma Buffer_compare_0 (a b : list byte) :
  Js.Buffer_compare a b = 0 <-> a = b.
Proof.
  revert b. induction a as [|x a IH]; intros [|y b]; simpl;
    try (split; [discriminate | congruence]).
  - tauto.
  - destruct (N.ltb_spec (Byte.to_N x) (Byte.to_N y)) as [Hxy|Hxy].
    + split; [discriminate | intros [= -> _]; lia].
    + destruct (N.ltb_spec (Byte.to_N y) (Byte.to_N x)) as [Hyx|Hyx].
      * split; [discriminate | intros [= -> _]; lia].
      * rewrite IH. assert (x = y) by (apply to_N_inj; lia).
        subst. split; [intros ->; reflexivity | intros [= ->]; reflexivity].
Qed.

Lemma split_comma_not_nil (s : string) : Js.split_comma s <> [].
Proof.
  destruct s as [|c s]; simpl; [discriminate|].
  destruct (Ascii.eqb c ","); [discriminate|].
  destruct (Js.split_comma s); discriminate.
Qed.

(** [String.fromCharCode(...buffer)] is the string whose characters have
    the bytes as codes. *)
Lemma fromCharCode_Buffer (bs : list byte) :
  Js.String_fromCharCode (spread (Buffer bs)) = string_of_list_byte bs.
Proof.
  unfold Js.String_fromCharCode, string_of_list_byte, spread.
  rewrite map_map. f_equal. apply map_ext. intros b. simpl.
  rewrite ascii_of_byte_via_N. f_equal.
  pose proof (Byte.to_N_bounded b) as Hb.
  rewrite Z.mod_small by lia. apply N2Z.id.
Qed.

(** The character codes [String.fromCharCode] is given here are below 256. *)
Lemma charCode_small (p : property) (a : Js.arg) :
  In a (spread p) -> 0 <= Js.ToUint16 (Js.ToNumber a) < 256.
Proof.
  destruct p as [bs|s]; simpl; rewrite in_map_iff; intros [x [<- _]]; simpl.
  - pose proof (Byte.to_N_bounded x). rewrite Z.mod_small; lia.
  - destruct (Js.isStrWhiteSpaceChar x).
    + change (0 <= 0 mod 65536 < 256). rewrite Z.mod_small; lia.
    + destruct ((48 <=? Z.of_N (N_of_ascii x)) && (Z.of_N (N_of_ascii x) <=? 57))
        eqn:Hd.
      * apply andb_true_iff in Hd. destruct Hd as [H1 H2].
        apply Z.leb_le in H1, H2.
        change (0 <= (Z.of_N (N_of_ascii x) - 48) mod 65536 < 256).
        rewrite Z.mod_small; lia.
      * change (0 <= 0 < 256). lia.
Qed.

(** ** Facts about the loops *)

Lemma for_of_Forall2 {A B : Type} (body : A -> result B)
    (xs : list A) (ys : list B) :
  for_of body xs = Ok ys -> Forall2 (fun x y => body x = Ok y) xs ys.
Proof.
  revert ys. induction xs as [|x xs IH]; simpl; intros ys H.
  - injection H as <-. constructor.
  - destruct (body x) as [y|] eqn:Hx; simpl in H; [|discriminate].
    destruct (for_of body xs) as [ys'|] eqn:Hxs; simpl in H; [|discriminate].
    injection H as <-. constructor; auto.
Qed.

Lemma for_of_total {A B : Type} (body : A -> result B) (xs : list A) :
  (forall x, In x xs -> exists y, body x = Ok y) ->
  exists ys, for_of body xs = Ok ys.
Proof.
  induction xs as [|x xs IH]; simpl; intros H.
  - now exists [].
  - destruct (H x (or_introl eq_refl)) as [y Hy].
    destruct IH as [ys Hys]; [intros; apply H; now right|].
    exists (y :: ys). now rewrite Hy, Hys.
Qed.

Section Loops.

Variable TsChar_decode : list byte -> string.
Variable dayjs_local_format : TsDate.datetime -> string.

(** The event loop formats every event in order and computes the flag
    on the side. *)
Lemma format_events_for_of (cfg : config) (evs : list event) (before : bool) :
  format_events TsChar_decode dayjs_local_format cfg evs before =
  (fevs <- for_of (format_event TsChar_decode dayjs_local_format) evs ;;
   Ok (fevs, detected cfg evs before)).
Proof.
  revert before.
  induction evs as [|ev evs IH]; intros before; simpl.
  - unfold detected. simpl. now rewrite andb_false_r, orb_false_r.
  - destruct (format_event _ _ ev) as [fev|]; simpl; [|reflexivity].
    rewrite IH.
    destruct (for_of _ evs) as [fevs|]; simpl; [|reflexivity].
    do 2 f_equal. unfold detected. simpl.
    destruct (0 <? Z.of_nat (List.length (filterEventIds cfg))); simpl.
    + destruct (Js.includes (filterEventIds cfg) (event_id ev)); simpl.
      * now rewrite orb_true_r.
      * reflexivity.
    + reflexivity.
Qed.

Lemma for_of_length {A B : Type} (body : A -> result B) xs ys :
  for_of body xs = Ok ys -> List.length ys = List.length xs.
Proof.
  intros H. apply for_of_Forall2 in H.
  induction H; simpl; congruence.
Qed.

(** A well-formed descriptor is formatted without error. *)
Lemma format_descriptor_total (d : descriptor) :
  has_required_properties d = true ->
  exists fd, format_descriptor TsChar_decode d = Ok fd.
Proof.
  unfold has_required_properties, format_descriptor. intros H.
  apply andb_true_iff in H. destruct H as [H1 H2].
  destruct (descriptor_tag d =? 0x4D) eqn:T1.
  - eauto.
  - destruct (descriptor_tag d =? 0x4E) eqn:T2; [|eauto].
    destruct (ISO_639_language_code d); [|discriminate].
    destruct (items d); [|discriminate]. simpl. eauto.
Qed.

Lemma format_event_total (ev : event) :
  well_formed_event ev = true ->
  exists fev, format_event TsChar_decode dayjs_local_format ev = Ok fev.
Proof.
  unfold well_formed_event. intros H. unfold format_event.
  destruct (for_of_total (format_descriptor TsChar_decode) (descriptors ev))
    as [ds Hds].
  - intros d Hd. apply format_descriptor_total.
    rewrite forallb_forall in H. now apply H.
  - rewrite Hds. simpl. eauto.
Qed.

Lemma format_event_id (ev : event) (fev : formatted_event) :
  format_event TsChar_decode dayjs_local_format ev = Ok fev ->
  f_event_id fev = event_id ev.
Proof.
  unfold format_event. intros H.
  destruct (for_of _ (descriptors ev)); simpl in H; [|discriminate].
  now injection H as <-.
Qed.

Lemma format_event_start_time (ev : event) (fev : formatted_event) :
  format_event TsChar_decode dayjs_local_format ev = Ok fev ->
  f_start_time fev = format_start_time dayjs_local_format (start_time ev).
Proof.
  unfold format_event. intros H.
  destruct (for_of _ (descriptors ev)); simpl in H; [|discriminate].
  now injection H as <-.
Qed.

Lemma format_event_duration (ev : event) (fev : formatted_event) :
  format_event TsChar_decode dayjs_local_format ev = Ok fev ->
  f_duration fev = format_duration (duration ev).
Proof.
  unfold format_event. intros H.
  destruct (for_of _ (descriptors ev)); simpl in H; [|discriminate].
  now injection H as <-.
Qed.

Lemma format_event_descriptors (ev : event) (fev : formatted_event) :
  format_event TsChar_decode dayjs_local_format ev = Ok fev ->
  for_of (format_descriptor TsChar_decode) (descriptors ev)
  = Ok (f_descriptors fev).
Proof.
  unfold format_event. intros H.
  destruct (for_of _ (descriptors ev)); simpl in H; [|discriminate].
  now injection H as <-.
Qed.

End Loops.

(** ** Facts about the EIT handler *)

Section Handler.

Variable TsChar_decode : list byte -> string.
Variable dayjs_local_format : TsDate.datetime -> string.

(** The tail of the handler in terms of the formatted events. *)
Lemma format_and_print_for_of (cfg : config) (e : eit) (evs : list event) :
  format_and_print TsChar_decode dayjs_local_format cfg e evs =
  (fevs <- for_of (format_event TsChar_decode dayjs_local_format) evs ;;
   if (0 <? Z.of_nat (List.length (filterEventIds cfg)))
      && (Z.of_nat (List.length fevs) =? 0)
   then Ok []
   else if (0 <? Z.of_nat (List.length (filterEventIds cfg)))
           && negb (detected cfg evs false)
   then Ok []
   else Ok (printed e fevs)).
Proof.
  unfold format_and_print.
  rewrite format_events_for_of.
  destruct (for_of _ evs) as [fevs|]; reflexivity.
Qed.

(** A section without an event list prints nothing. *)
Lemma on_eit_no_events (cfg : config) (e : eit) :
  events e = None -> on_eit TsChar_decode dayjs_local_format cfg e = Ok [].
Proof. unfold on_eit. now intros ->. Qed.

(** A section that is no EIT of the stream itself prints nothing. *)
Lemma on_eit_not_self_stream (cfg : config) (e : eit) :
  ~ self_stream e -> on_eit TsChar_decode dayjs_local_format cfg e = Ok [].
Proof.
  intros Hn. unfold on_eit, after_events_check.
  destruct (events e) as [evs|]; [|reflexivity].
  destruct (negb (Js.includesZ (range 0x50 0x60 1) (table_id e))
            && negb (table_id e =? 0x4E)) eqn:Hc; [reflexivity|].
  apply table_id_check in Hc. contradiction.
Qed.

(** A section that is an EIT of the stream itself goes on to the service
    filter. *)
Lemma on_eit_self_stream (cfg : config) (e : eit) (evs : list event) :
  events e = Some evs -> self_stream e ->
  on_eit TsChar_decode dayjs_local_format cfg e
  = after_table_id_check TsChar_decode dayjs_local_format cfg e evs.
Proof.
  intros He Hs. unfold on_eit, after_events_check.
  rewrite He. apply table_id_check in Hs. now rewrite Hs.
Qed.

(** The service filter lets a section through when it is allowed ... *)
Lemma service_filter_passes (cfg : config) (e : eit) (evs : list event) :
  service_allowed cfg e ->
  after_table_id_check TsChar_decode dayjs_local_format cfg e evs
  = after_service_filter TsChar_decode dayjs_local_format cfg e evs.
Proof.
  unfold after_table_id_check. intros [Hnil|Hin].
  - now rewrite Hnil.
  - apply includes_true in Hin. rewrite Hin. simpl. now rewrite andb_false_r.
Qed.

(** ... and stops it otherwise. *)
Lemma service_filter_skips (cfg : config) (e : eit) (evs : list event) :
  filterServiceIds cfg <> [] ->
  ~ In (Js.Int (service_id e)) (filterServiceIds cfg) ->
  after_table_id_check TsChar_decode dayjs_local_format cfg e evs = Ok [].
Proof.
  unfold after_table_id_check. intros Hne Hnot.
  apply length_positive in Hne. apply includes_false in Hnot.
  now rewrite Hne, Hnot.
Qed.

Lemma type_filter_passes (cfg : config) (e : eit) (evs : list event) :
  type_allowed cfg e ->
  after_service_filter TsChar_decode dayjs_local_format cfg e evs
  = format_and_print TsChar_decode dayjs_local_format cfg e evs.
Proof.
  unfold after_service_filter. intros [Hnil|Hin].
  - now rewrite Hnil.
  - apply includesStr_true in Hin. rewrite Hin. simpl. now rewrite andb_false_r.
Qed.

Lemma type_filter_skips (cfg : config) (e : eit) (evs : list event) :
  filterEitTypes cfg <> [] ->
  ~ In (eitType e) (filterEitTypes cfg) ->
  after_service_filter TsChar_decode dayjs_local_format cfg e evs = Ok [].
Proof.
  unfold after_service_filter. intros Hne Hnot.
  apply length_positive in Hne. apply includesStr_false in Hnot.
  now rewrite Hne, Hnot.
Qed.

(** Whatever the handler does, it is one of: nothing, an error, or what
    its tail does. *)
Lemma on_eit_cases (cfg : config) (e : eit) :
  on_eit TsChar_decode dayjs_local_format cfg e = Ok []
  \/ exists evs,
       events e = Some evs
       /\ on_eit TsChar_decode dayjs_local_format cfg e
          = format_and_print TsChar_decode dayjs_local_format cfg e evs.
Proof.
  unfold on_eit, after_events_check, after_table_id_check,
    after_service_filter.
  destruct (events e) as [evs|]; [|now left].
  destruct (negb _ && negb _); [now left|].
  destruct (_ && negb (Js.includes _ _)); [now left|].
  destruct (_ && negb (Js.includesStr _ _)); [now left|].
  right. now exists evs.
Qed.

(** A section that passes the three section-level filters reaches the
    tail of the handler. *)
Lemma on_eit_passes (cfg : config) (e : eit) (evs : list event) :
  events e = Some evs -> self_stream e ->
  service_allowed cfg e -> type_allowed cfg e ->
  on_eit TsChar_decode dayjs_local_format cfg e
  = format_and_print TsChar_decode dayjs_local_format cfg e evs.
Proof.
  intros He Hs Hsv Ht.
  rewrite (on_eit_self_stream cfg e evs He Hs).
  rewrite service_filter_passes by assumption.
  now apply type_filter_passes.
Qed.

(** Every dump comes from a printed record whose events are the formatted
    events of the section, one for one. *)
Lemma on_eit_printed (cfg : config) (e : eit) (out : list output)
    (t : formatted_eit) :
  on_eit TsChar_decode dayjs_local_format cfg e = Ok out ->
  In (DirEit t) out ->
  exists evs fevs,
    events e = Some evs
    /\ for_of (format_event TsChar_decode dayjs_local_format) evs = Ok fevs
    /\ t = formattedEit e fevs
    /\ out = printed e fevs.
Proof.
  intros Hout Hin.
  destruct (on_eit_cases cfg e) as [H0|[evs [He Ht]]].
  - rewrite H0 in Hout. injection Hout as <-. destruct Hin.
  - rewrite Ht, format_and_print_for_of in Hout.
    destruct (for_of _ evs) as [fevs|] eqn:Hf; simpl in Hout; [|discriminate].
    destruct (_ && (_ =? 0)); [injection Hout as <-; destruct Hin|].
    destruct (_ && negb _); [injection Hout as <-; destruct Hin|].
    injection Hout as <-. exists evs, fevs.
    split; [assumption|]. split; [assumption|]. split; [|reflexivity].
    simpl in Hin.
    destruct Hin as [H|[H|[H|[H|[]]]]]; try discriminate.
    now injection H as <-.
Qed.

End Handler.

(** ** Facts about the time fields *)

Lemma lor_shiftl_8 (hi lo : Z) :
  0 <= lo < 256 -> Z.lor (Z.shiftl hi 8) lo = 256 * hi + lo.
Proof.
  intros Hlo.
  assert (Hland : Z.land (Z.shiftl hi 8) lo = 0).
  { apply Z.bits_inj'. intros n Hn.
    rewrite Z.land_spec, Z.bits_0.
    destruct (Z.lt_ge_cases n 8) as [Hlt|Hge].
    - now rewrite Z.shiftl_spec_low.
    - destruct (Z.eq_dec lo 0) as [->|Hnz].
      + now rewrite Z.bits_0, andb_false_r.
      + rewrite (Z.bits_above_log2 lo n), andb_false_r; [reflexivity|lia|].
        assert (Z.log2 lo < 8) by (apply Z.log2_lt_pow2; simpl; lia).
        lia. }
  pose proof (Z.add_lor_land (Z.shiftl hi 8) lo) as H.
  rewrite Hland in H.
  assert (Hmul : Z.shiftl hi 8 = 256 * hi).
  { rewrite Z.shiftl_mul_pow2 by lia. change (2 ^ 8) with 256. lia. }
  lia.
Qed.

(** A BCD byte is ten times its high nibble plus its low nibble. *)
Lemma bcd_nibbles (b : byte) :
  TsDate.bcd b
  = 10 * (Z.of_N (Byte.to_N b) / 16) + Z.of_N (Byte.to_N b) mod 16.
Proof.
  unfold TsDate.bcd.
  rewrite Z.shiftr_div_pow2 by lia.
  change 15 with (Z.ones 4). rewrite Z.land_ones by lia.
  change (2 ^ 4) with 16. lia.
Qed.

(** The five bytes of a date-time field: day number, then hour, minute
    and second. *)
Lemma decode_five_bytes (b0 b1 b2 b3 b4 : byte) :
  TsDate.decode [b0; b1; b2; b3; b4]
  = {| TsDate.mjd := 256 * Z.of_N (Byte.to_N b0) + Z.of_N (Byte.to_N b1);
       TsDate.hour := TsDate.bcd b2;
       TsDate.minute := TsDate.bcd b3;
       TsDate.second := TsDate.bcd b4 |}.
Proof.
  unfold TsDate.decode, TsDate.decodeTime. cbn [nth skipn].
  rewrite lor_shiftl_8; [reflexivity|].
  pose proof (Byte.to_N_bounded b1). lia.
Qed.

(** The start time is the sentinel or a decoded and formatted date-time. *)
Lemma format_start_time_cases
    (dayjs_local_format : TsDate.datetime -> string) (raw : list byte) :
  (raw = UNKNOWN_START_TIME ->
   format_start_time dayjs_local_format raw = Infinity)
  /\ (raw <> UNKNOWN_START_TIME ->
      format_start_time dayjs_local_format raw
      = JString (dayjs_local_format (TsDate.decode raw))).
Proof.
  unfold format_start_time.
  destruct (Z.eqb_spec (Js.Buffer_compare UNKNOWN_START_TIME raw) 0) as [H0|Hn].
  - apply Buffer_compare_0 in H0. split; [reflexivity | congruence].
  - split; [|reflexivity].
    intros ->. exfalso. apply Hn. now apply Buffer_compare_0.
Qed.

(** The duration is the sentinel or a number of seconds. *)
Lemma format_duration_cases (raw : list byte) :
  (raw = UNKNOWN_DURATION -> format_duration raw = Infinity)
  /\ (raw <> UNKNOWN_DURATION ->
      forall h m s, TsDate.decodeTime raw = (h, m, s) ->
      format_duration raw = JNumber (h * 3600 + m * 60 + s)).
Proof.
  unfold format_duration.
  destruct (Z.eqb_spec (Js.Buffer_compare UNKNOWN_DURATION raw) 0) as [H0|Hn].
  - apply Buffer_compare_0 in H0. split; [reflexivity | congruence].
  - split.
    + intros ->. exfalso. apply Hn. now apply Buffer_compare_0.
    + intros _ h m s ->. reflexivity.
Qed.

(** ** The claims *)

(** C1.  An EIT section whose [table_id] is outside [0x50, 0x60) and is
    not 0x4E produces no output, whatever the configuration; a section
    whose [table_id] is in [0x50, 0x60) or is 0x4E (and that has an event
    list) passes the table-id check and is handed to the rest of the
    handler. *)
Theorem C1_table_id_check
    (TsChar_decode : list byte -> string)
    (dayjs_local_format : TsDate.datetime -> string)
    (cfg : config) (e : eit) :
  (~ (0x50 <= table_id e < 0x60) -> table_id e <> 0x4E ->
   on_eit TsChar_decode dayjs_local_format cfg e = Ok [])
  /\ (0x50 <= table_id e < 0x60 \/ table_id e = 0x4E ->
      forall evs, events e = Some evs ->
      on_eit TsChar_decode dayjs_local_format cfg e
      = after_table_id_check TsChar_decode dayjs_local_format cfg e evs).
Proof.
  split.
  - intros Hr H4e. apply on_eit_not_self_stream. unfold self_stream. tauto.
  - intros Hs evs He. now apply on_eit_self_stream.
Qed.

Lemma C1_table_id_check_witness :
  on_eit ascii_decoder plain_format no_filter (eit_with 0x4F 0 (Some [event_100]))
  = Ok []
  /\ on_eit ascii_decoder plain_format no_filter (eit_with 0x51 0 (Some [event_100]))
     = after_table_id_check ascii_decoder plain_format no_filter
         (eit_with 0x51 0 (Some [event_100])) [event_100].
Proof.
  split.
  - apply (proj1 (C1_table_id_check ascii_decoder plain_format no_filter
                    (eit_with 0x4F 0 (Some [event_100])))); simpl; lia.
  - apply (proj2 (C1_table_id_check ascii_decoder plain_format no_filter
                    (eit_with 0x51 0 (Some [event_100])))).
    + left. simpl. lia.
    + reflexivity.
Defined.

(** C2.  The type of a section is [present] for [table_id] 0x4E with
    [section_number] 0, [following] for 0x4E with any other
    [section_number], and [schedule] for every [table_id] in [0x50, 0x60).
    When the type allow-list is not empty, a section whose type is not in
    it produces no output, and a section whose type is in it is handed by
    the type filter to the formatting and printing part. *)
Theorem C2_type_classification_and_filter
    (TsChar_decode : list byte -> string)
    (dayjs_local_format : TsDate.datetime -> string)
    (cfg : config) (e : eit) :
  (table_id e = 0x4E -> section_number e = 0 -> eitType e = "present")
  /\ (table_id e = 0x4E -> section_number e <> 0 -> eitType e = "following")
  /\ (0x50 <= table_id e < 0x60 -> eitType e = "schedule")
  /\ (filterEitTypes cfg <> [] -> ~ In (eitType e) (filterEitTypes cfg) ->
      on_eit TsChar_decode dayjs_local_format cfg e = Ok [])
  /\ (In (eitType e) (filterEitTypes cfg) ->
      forall evs,
      after_service_filter TsChar_decode dayjs_local_format cfg e evs
      = format_and_print TsChar_decode dayjs_local_format cfg e evs).
Proof.
  unfold eitType. repeat split.
  - intros -> ->. reflexivity.
  - intros -> Hn. apply Z.eqb_neq in Hn. now rewrite Hn.
  - intros Hr. destruct (Z.eqb_spec (table_id e) 0x4E) as [H|_]; [lia|reflexivity].
  - intros Hne Hnot.
    unfold on_eit, after_events_check, after_table_id_check.
    destruct (events e) as [evs|]; [|reflexivity].
    destruct (negb _ && negb _); [reflexivity|].
    destruct (_ && negb (Js.includes _ _)); [reflexivity|].
    now apply type_filter_skips.
  - intros Hin evs. apply type_filter_passes. now right.
Qed.

Lemma C2_type_classification_and_filter_witness :
  eitType (eit_with 0x4E 0 (Some [event_100])) = "present"
  /\ eitType (eit_with 0x4E 1 (Some [event_100])) = "following"
  /\ eitType (eit_with 0x51 0 (Some [event_100])) = "schedule"
  /\ on_eit ascii_decoder plain_format only_present
       (eit_with 0x4E 1 (Some [event_100])) = Ok []
  /\ after_service_filter ascii_decoder plain_format only_present
       (eit_with 0x4E 0 (Some [event_100])) [event_100]
     = format_and_print ascii_decoder plain_format only_present
         (eit_with 0x4E 0 (Some [event_100])) [event_100].
Proof.
  pose proof (C2_type_classification_and_filter ascii_decoder plain_format
                only_present (eit_with 0x4E 0 (Some [event_100]))) as P.
  pose proof (C2_type_classification_and_filter ascii_decoder plain_format
                only_present (eit_with 0x4E 1 (Some [event_100]))) as F.
  pose proof (C2_type_classification_and_filter ascii_decoder plain_format
                only_present (eit_with 0x51 0 (Some [event_100]))) as S.
  destruct P as [P1 [_ [_ [_ P5]]]].
  destruct F as [_ [F2 [_ [F4 _]]]].
  destruct S as [_ [_ [S3 _]]].
  split; [apply P1; reflexivity|].
  split; [apply F2; [reflexivity | simpl; lia]|].
  split; [apply S3; simpl; lia|].
  split.
  - apply F4; [discriminate|].
    simpl. intros [H|[]]. discriminate.
  - apply P5. simpl. left. reflexivity.
Defined.

(** C6.  An EIT section whose event list is absent produces no output,
    whatever its other fields and whatever the configuration.  The answer
    is the same for every text decoder and every date formatter: none of
    them is consulted. *)
Theorem C6_absent_event_list
    (TsChar_decode : list byte -> string)
    (dayjs_local_format : TsDate.datetime -> string)
    (cfg : config) (e : eit) :
  events e = None ->
  on_eit TsChar_decode dayjs_local_format cfg e = Ok [].
Proof. apply on_eit_no_events. Qed.

Lemma C6_absent_event_list_witness :
  on_eit ascii_decoder plain_format no_filter (eit_with 0x4E 0 None) = Ok [].
Proof.
  apply (C6_absent_event_list ascii_decoder plain_format no_filter
           (eit_with 0x4E 0 None)).
  reflexivity.
Defined.

(** C7.  When the service-id allow-list is not empty, an EIT section whose
    [service_id] is not in it produces no output.  A TOT section is
    printed under every configuration: its banner, a rule, the dump and a
    rule, where [JST_time] is the string the date formatter gives for
    [TsDate.decode] of the raw field, which is also what a [start_time]
    other than the sentinel is rendered with. *)
Theorem C7_service_filter_and_tot
    (TsChar_decode : list byte -> string)
    (dayjs_local_format : TsDate.datetime -> string)
    (cfg : config) :
  (forall e : eit,
     filterServiceIds cfg <> [] ->
     ~ In (Js.Int (service_id e)) (filterServiceIds cfg) ->
     on_eit TsChar_decode dayjs_local_format cfg e = Ok [])
  /\ (forall t : tot,
        handle TsChar_decode dayjs_local_format cfg (TOT t)
        = Ok [Log "TOT (Time Offset Table)"; Log separator;
              DirTot {| f_tot_table_id := tot_table_id t;
                        f_JST_time :=
                          dayjs_local_format (TsDate.decode (JST_time t)) |};
              Log separator])
  /\ (forall (t : tot) (rest : list table),
        process TsChar_decode dayjs_local_format cfg (TOT t :: rest)
        = (on_tot dayjs_local_format t
             ++ process TsChar_decode dayjs_local_format cfg rest)%list)
  /\ (forall t : tot,
        JST_time t <> UNKNOWN_START_TIME ->
        format_start_time dayjs_local_format (JST_time t)
        = JString (dayjs_local_format (TsDate.decode (JST_time t)))).
Proof.
  repeat split.
  - intros e Hne Hnot.
    unfold on_eit, after_events_check.
    destruct (events e) as [evs|]; [|reflexivity].
    destruct (negb _ && negb _); [reflexivity|].
    now apply service_filter_skips.
  - intros t Hraw. unfold format_start_time.
    destruct (Z.eqb_spec (Js.Buffer_compare UNKNOWN_START_TIME (JST_time t)) 0)
      as [H0|_]; [|reflexivity].
    apply Buffer_compare_0 in H0. congruence.
Qed.

Lemma C7_service_filter_and_tot_witness :
  on_eit ascii_decoder plain_format only_services_2048_4096
    (eit_with 0x4E 0 (Some [event_100])) = Ok []
  /\ format_start_time plain_format (JST_time tot_sample)
     = JString (plain_format (TsDate.decode (JST_time tot_sample))).
Proof.
  pose proof (C7_service_filter_and_tot ascii_decoder plain_format
                only_services_2048_4096) as [S [_ [_ D]]].
  split.
  - apply S; [discriminate|].
    simpl. intros [H|[H|[]]]; discriminate.
  - apply D. discriminate.
Defined.

(** C10.  Without an event-id allow-list, an EIT section that has an empty
    event list and passes the table-id, service-id and type filters is
    printed in full: banner, rule, a dump whose events are the empty
    sequence, rule.  With an event-id allow-list, a section with an empty
    event list produces no output. *)
Theorem C10_empty_event_list
    (TsChar_decode : list byte -> string)
    (dayjs_local_format : TsDate.datetime -> string)
    (cfg : config) (e : eit) :
  events e = Some [] ->
  (filterEventIds cfg = [] ->
   self_stream e -> service_allowed cfg e -> type_allowed cfg e ->
   on_eit TsChar_decode dayjs_local_format cfg e
   = Ok [Log (banner e); Log separator;
         DirEit {| f_table_id := table_id e;
                   f_service_id := service_id e;
                   f_section_number := section_number e;
                   f_events := [] |};
         Log separator])
  /\ (filterEventIds cfg <> [] ->
      on_eit TsChar_decode dayjs_local_format cfg e = Ok []).
Proof.
  intros He. split.
  - intros Hnil Hs Hsv Ht.
    rewrite (on_eit_passes _ _ cfg e [] He Hs Hsv Ht).
    unfold format_and_print. simpl. now rewrite Hnil.
  - intros Hne.
    destruct (on_eit_cases TsChar_decode dayjs_local_format cfg e)
      as [H0|[evs [He' Ht]]]; [assumption|].
    rewrite Ht. rewrite He in He'. injection He' as <-.
    unfold format_and_print. simpl.
    apply length_positive in Hne. now rewrite Hne.
Qed.

Lemma C10_empty_event_list_witness :
  on_eit ascii_decoder plain_format no_filter (eit_with 0x51 0 (Some []))
  = Ok [Log "EIT (Event Information Table) [schedule] [service_id: 1024]";
        Log separator;
        DirEit {| f_table_id := 0x51; f_service_id := 1024;
                  f_section_number := 0; f_events := [] |};
        Log separator]
  /\ on_eit ascii_decoder plain_format only_event_100
       (eit_with 0x51 0 (Some [])) = Ok [].
Proof.
  split.
  - apply (proj1 (C10_empty_event_list ascii_decoder plain_format no_filter
                    (eit_with 0x51 0 (Some [])) eq_refl)).
    + reflexivity.
    + left. simpl. lia.
    + left. reflexivity.
    + left. reflexivity.
  - apply (proj2 (C10_empty_event_list ascii_decoder plain_format only_event_100
                    (eit_with 0x51 0 (Some [])) eq_refl)).
    discriminate.
Defined.

(** C5.  With a non-empty event-id allow-list: an EIT section none of
    whose events has its [event_id] in the list (a section with no event
    included) puts nothing on the logger; a section that passes the
    section-level filters, whose descriptors have the properties of
    their tags, and in which some event has its [event_id] in the list is
    printed with all its events, matching or not, each formatted, in the
    order of the section. *)
Theorem C5_event_id_filter
    (TsChar_decode : list byte -> string)
    (dayjs_local_format : TsDate.datetime -> string)
    (cfg : config) (e : eit) (evs : list event) :
  filterEventIds cfg <> [] ->
  events e = Some evs ->
  ((forall ev, In ev evs -> ~ In (Js.Int (event_id ev)) (filterEventIds cfg)) ->
   logged (on_eit TsChar_decode dayjs_local_format cfg e) = [])
  /\ ((exists ev, In ev evs /\ In (Js.Int (event_id ev)) (filterEventIds cfg)) ->
      self_stream e -> service_allowed cfg e -> type_allowed cfg e ->
      forallb well_formed_event evs = true ->
      exists fevs,
        on_eit TsChar_decode dayjs_local_format cfg e
        = Ok [Log (banner e); Log separator;
              DirEit {| f_table_id := table_id e;
                        f_service_id := service_id e;
                        f_section_number := section_number e;
                        f_events := fevs |};
              Log separator]
        /\ for_of (format_event TsChar_decode dayjs_local_format) evs = Ok fevs
        /\ map f_event_id fevs = map event_id evs).
Proof.
  intros Hne He. apply length_positive in Hne. split.
  - intros Hnone.
    destruct (on_eit_cases TsChar_decode dayjs_local_format cfg e)
      as [H0|[evs' [He' Ht]]]; [now rewrite H0|].
    rewrite He in He'. injection He' as <-.
    assert (Hd : detected cfg evs false = false).
    { unfold detected. rewrite Hne. simpl.
      apply not_true_is_false. intros Hex.
      apply existsb_exists in Hex. destruct Hex as [ev [Hin Hinc]].
      apply includes_true in Hinc. exact (Hnone ev Hin Hinc). }
    rewrite Ht, format_and_print_for_of, Hne, Hd.
    destruct (for_of _ evs) as [fevs|]; simpl; [|reflexivity].
    destruct (_ =? 0); reflexivity.
  - intros [ev [Hin Hid]] Hs Hsv Hty Hwf.
    destruct (for_of_total (format_event TsChar_decode dayjs_local_format) evs)
      as [fevs Hf].
    { intros x Hx. apply format_event_total.
      rewrite forallb_forall in Hwf. now apply Hwf. }
    exists fevs.
    rewrite (on_eit_passes _ _ cfg e evs He Hs Hsv Hty).
    assert (Hlen : (Z.of_nat (List.length fevs) =? 0) = false).
    { apply Z.eqb_neq. rewrite (for_of_length _ _ _ Hf).
      destruct evs; [destruct Hin | simpl; lia]. }
    assert (Hd : detected cfg evs false = true).
    { unfold detected. rewrite Hne. simpl.
      apply existsb_exists. exists ev. split; [assumption|].
      now apply includes_true. }
    rewrite format_and_print_for_of, Hf, Hd, Hne. cbn [bind].
    rewrite Hlen. simpl.
    split; [reflexivity|]. split; [reflexivity|].
    apply for_of_Forall2 in Hf. clear -Hf.
    induction Hf as [|x y xs ys Hxy _ IH]; simpl; [reflexivity|].
    now rewrite IH, (format_event_id _ _ _ _ Hxy).
Qed.

Lemma C5_event_id_filter_witness :
  logged (on_eit ascii_decoder plain_format only_event_100
            (eit_with 0x4E 0 (Some [event_200]))) = []
  /\ exists fevs,
       on_eit ascii_decoder plain_format only_event_100
         (eit_with 0x4E 0 (Some [event_200; event_100]))
       = Ok [Log "EIT (Event Information Table) [present] [service_id: 1024]";
             Log separator;
             DirEit {| f_table_id := 0x4E; f_service_id := 1024;
                       f_section_number := 0; f_events := fevs |};
             Log separator]
       /\ for_of (format_event ascii_decoder plain_format)
            [event_200; event_100] = Ok fevs
       /\ map f_event_id fevs = [200; 100].
Proof.
  split.
  - apply (proj1 (C5_event_id_filter ascii_decoder plain_format only_event_100
                    (eit_with 0x4E 0 (Some [event_200])) [event_200]
                    ltac:(discriminate) eq_refl)).
    simpl. intros ev [<-|[]] [H|[]]. discriminate.
  - apply (proj2 (C5_event_id_filter ascii_decoder plain_format only_event_100
                    (eit_with 0x4E 0 (Some [event_200; event_100]))
                    [event_200; event_100] ltac:(discriminate) eq_refl)).
    + exists event_100. simpl. split; [right; left; reflexivity | left; reflexivity].
    + right. reflexivity.
    + left. reflexivity.
    + left. reflexivity.
    + reflexivity.
Defined.

(** X15.  In every printed EIT record the events of the dump are those of
    the section, one for one, and for each of them: a raw [start_time]
    equal to FF FF FF FF FF is rendered as [Infinity]; any other raw value
    is rendered as the string the date formatter gives for
    [TsDate.decode] of it.  [TsDate.decode] reads a five-byte field as a
    16-bit day number followed by three BCD bytes for hour, minute and
    second.  The formatter stands for [dayjs(...).local().format()], whose
    time zone and layout belong to the date library. *)
Theorem start_time_rendering
    (TsChar_decode : list byte -> string)
    (dayjs_local_format : TsDate.datetime -> string)
    (cfg : config) (e : eit) (out : list output) (t : formatted_eit) :
  on_eit TsChar_decode dayjs_local_format cfg e = Ok out ->
  In (DirEit t) out ->
  (exists evs,
     events e = Some evs
     /\ Forall2
          (fun ev fev =>
             (start_time ev = [xff; xff; xff; xff; xff] ->
              f_start_time fev = Infinity)
             /\ (start_time ev <> [xff; xff; xff; xff; xff] ->
                 f_start_time fev
                 = JString (dayjs_local_format (TsDate.decode (start_time ev)))))
          evs (f_events t))
  /\ (forall b0 b1 b2 b3 b4 : byte,
        TsDate.decode [b0; b1; b2; b3; b4]
        = {| TsDate.mjd := 256 * Z.of_N (Byte.to_N b0) + Z.of_N (Byte.to_N b1);
             TsDate.hour :=
               10 * (Z.of_N (Byte.to_N b2) / 16) + Z.of_N (Byte.to_N b2) mod 16;
             TsDate.minute :=
               10 * (Z.of_N (Byte.to_N b3) / 16) + Z.of_N (Byte.to_N b3) mod 16;
             TsDate.second :=
               10 * (Z.of_N (Byte.to_N b4) / 16) + Z.of_N (Byte.to_N b4) mod 16
          |}).
Proof.
  intros Hout Hin. split.
  - destruct (on_eit_printed _ _ cfg e out t Hout Hin)
      as [evs [fevs [He [Hf [-> _]]]]].
    exists evs. split; [assumption|]. simpl.
    apply for_of_Forall2 in Hf.
    eapply Forall2_impl; [|exact Hf].
    intros ev fev Hev. simpl in Hev.
    rewrite (format_event_start_time _ _ _ _ Hev).
    apply format_start_time_cases.
  - intros b0 b1 b2 b3 b4.
    rewrite decode_five_bytes, !bcd_nibbles. reflexivity.
Qed.

Lemma start_time_rendering_witness :
  exists evs,
    events eit_200_100 = Some evs
    /\ Forall2
         (fun ev fev =>
            (start_time ev = [xff; xff; xff; xff; xff] ->
             f_start_time fev = Infinity)
            /\ (start_time ev <> [xff; xff; xff; xff; xff] ->
                f_start_time fev
                = JString (plain_format (TsDate.decode (start_time ev)))))
         evs formatted_200_100.
Proof.
  apply (proj1 (start_time_rendering ascii_decoder plain_format no_filter eit_200_100
                  (printed eit_200_100 formatted_200_100)
                  (formattedEit eit_200_100 formatted_200_100)
                  eq_refl
                  (or_intror (or_intror (or_introl eq_refl))))).
Defined.



(** C4.  In every printed EIT record, for each event: a raw [duration]
    equal to FF FF FF is rendered as [Infinity]; any other raw value is
    rendered as the integer hours*3600 + minutes*60 + seconds of the
    triple [TsDate.decodeTime] reads from it, each of the three bytes
    giving ten times its high nibble plus its low nibble.  The bytes
    01 30 00 are rendered as 5400. *)
Theorem C4_duration
    (TsChar_decode : list byte -> string)
    (dayjs_local_format : TsDate.datetime -> string)
    (cfg : config) (e : eit) (out : list output) (t : formatted_eit) :
  on_eit TsChar_decode dayjs_local_format cfg e = Ok out ->
  In (DirEit t) out ->
  (exists evs,
     events e = Some evs
     /\ Forall2
          (fun ev fev =>
             (duration ev = [xff; xff; xff] -> f_duration fev = Infinity)
             /\ (duration ev <> [xff; xff; xff] ->
                 forall h m s, TsDate.decodeTime (duration ev) = (h, m, s) ->
                 f_duration fev = JNumber (h * 3600 + m * 60 + s)))
          evs (f_events t))
  /\ (forall b0 b1 b2 : byte,
        TsDate.decodeTime [b0; b1; b2]
        = (10 * (Z.of_N (Byte.to_N b0) / 16) + Z.of_N (Byte.to_N b0) mod 16,
           10 * (Z.of_N (Byte.to_N b1) / 16) + Z.of_N (Byte.to_N b1) mod 16,
           10 * (Z.of_N (Byte.to_N b2) / 16) + Z.of_N (Byte.to_N b2) mod 16))
  /\ format_duration [x01; x30; x00] = JNumber 5400.
Proof.
  intros Hout Hin. split; [|split].
  - destruct (on_eit_printed _ _ cfg e out t Hout Hin)
      as [evs [fevs [He [Hf [-> _]]]]].
    exists evs. split; [assumption|]. simpl.
    apply for_of_Forall2 in Hf.
    eapply Forall2_impl; [|exact Hf].
    intros ev fev Hev. simpl in Hev.
    rewrite (format_event_duration _ _ _ _ Hev).
    apply format_duration_cases.
  - intros b0 b1 b2. unfold TsDate.decodeTime. cbn [nth].
    now rewrite !bcd_nibbles.
  - reflexivity.
Qed.

Lemma C4_duration_witness :
  exists evs,
    events eit_200_100 = Some evs
    /\ Forall2
         (fun ev fev =>
            (duration ev = [xff; xff; xff] -> f_duration fev = Infinity)
            /\ (duration ev <> [xff; xff; xff] ->
                forall h m s, TsDate.decodeTime (duration ev) = (h, m, s) ->
                f_duration fev = JNumber (h * 3600 + m * 60 + s)))
         evs formatted_200_100.
Proof.
  apply (proj1 (C4_duration ascii_decoder plain_format no_filter eit_200_100
                  (printed eit_200_100 formatted_200_100)
                  (formattedEit eit_200_100 formatted_200_100)
                  eq_refl
                  (or_intror (or_intror (or_introl eq_refl))))).
Defined.

(** The first conversion of a language code: the string whose characters
    have the bytes as codes.  This is what a descriptor with any tag but
    0x4E ends with. *)
Lemma language_code_other_tags
    (TsChar_decode : list byte -> string)
    (d : descriptor) (fd : formatted_descriptor) (code : list byte) :
  descriptor_tag d <> 0x4E ->
  ISO_639_language_code d = Some code ->
  format_descriptor TsChar_decode d = Ok fd ->
  f_ISO_639_language_code fd = Some (Text (string_of_list_byte code)).
Proof.
  intros Htag Hcode. unfold format_descriptor.
  rewrite Hcode, fromCharCode_Buffer.
  apply Z.eqb_neq in Htag. rewrite Htag.
  destruct (descriptor_tag d =? 0x4D); now intros [= <-].
Qed.

(** Under tag 0x4E the conversion runs a second time, on the string the
    first one stored. *)
Lemma language_code_extended
    (TsChar_decode : list byte -> string)
    (d : descriptor) (fd : formatted_descriptor) (code : list byte) :
  descriptor_tag d = 0x4E ->
  ISO_639_language_code d = Some code ->
  format_descriptor TsChar_decode d = Ok fd ->
  f_ISO_639_language_code fd
  = Some (Text (Js.String_fromCharCode
                  (map Js.AChar (map ascii_of_byte code)))).
Proof.
  intros Htag Hcode. unfold format_descriptor.
  rewrite Hcode, fromCharCode_Buffer, Htag. simpl.
  destruct (items d); simpl; [|discriminate].
  intros [= <-]. simpl. unfold string_of_list_byte.
  now rewrite list_ascii_of_string_of_list_ascii.
Qed.

(** C9.  The language code 4A 50 4E of a short event descriptor is
    rendered as the string JPN, but the same code in an extended event
    descriptor (tag 0x4E) is rendered as three characters of code 0: the
    handler converts the property once for every descriptor and once more
    under tag 0x4E, and the second conversion reads the letters of the
    string as numbers. *)
Theorem C9_language_code_of_extended_descriptor
    (TsChar_decode : list byte -> string)
    (dayjs_local_format : TsDate.datetime -> string) :
  (exists fd,
     format_descriptor TsChar_decode short_event_JPN = Ok fd
     /\ f_ISO_639_language_code fd = Some (Text "JPN"))
  /\ on_eit TsChar_decode dayjs_local_format no_filter eit_300
     = Ok [Log "EIT (Event Information Table) [present] [service_id: 1024]";
           Log separator;
           DirEit
             {| f_table_id := 0x4E; f_service_id := 1024; f_section_number := 0;
                f_events :=
                  [{| f_event_id := 300;
                      f_start_time :=
                        JString (dayjs_local_format
                                   (TsDate.decode [xc0; x79; x12; x45; x00]));
                      f_duration := JNumber 5400;
                      f_descriptors :=
                        [{| f_descriptor_tag := 0x4E;
                            f_ISO_639_language_code := Some (Text three_NUL);
                            f_text_char := Some (Text (TsChar_decode [x41]));
                            f_event_name_char := None;
                            f_items := Some [] |}] |}] |};
           Log separator]
  /\ three_NUL <> "JPN".
Proof.
  split; [|split].
  - eexists. split; reflexivity.
  - reflexivity.
  - discriminate.
Qed.

(** [NaN] in an allow-list equals no identifier. *)
Lemma NaN_matches_nothing (xs : list Js.number) (z : Z) :
  (forall x, In x xs -> x = Js.NaN) -> Js.includes xs z = false.
Proof.
  intros H. apply includes_false. intros Hin. apply H in Hin. discriminate.
Qed.

(** C8, as the code has it.  A non-numeric entry is no configuration
    error: whenever [--input] is given, startup succeeds, each entry of the
    service-id and event-id options is converted with [parseInt], and the
    tables are processed against the resulting lists.  An entry in which
    [parseInt] reads no number becomes [NaN], which equals no identifier. *)
Theorem C8_identifiers_are_not_validated (o : options) (path : string) :
  input o = Some path ->
  (exists cfg,
     startup o = Started cfg
     /\ (forall s, serviceIds o = Some s ->
         filterServiceIds cfg = map Js.parseInt (Js.split_comma s))
     /\ (forall s, eventIds o = Some s ->
         filterEventIds cfg = map Js.parseInt (Js.split_comma s))
     /\ (forall TsChar_decode dayjs_local_format ts,
         main TsChar_decode dayjs_local_format o ts
         = Some (Log separator
                   :: process TsChar_decode dayjs_local_format cfg ts)))
  /\ (forall entry z,
        non_numeric entry = true ->
        Js.parseInt entry = Js.NaN
        /\ Js.sameValueZero (Js.parseInt entry) z = false).
Proof.
  intros Hin. split.
  - unfold main, startup. rewrite Hin. eexists. split; [reflexivity|].
    split; [|split].
    + intros s ->. reflexivity.
    + intros s ->. reflexivity.
    + reflexivity.
  - intros entry z. unfold non_numeric.
    destruct (Js.parseInt entry); [|discriminate].
    intros _. split; reflexivity.
Qed.

Lemma C8_identifiers_are_not_validated_witness :
  exists cfg,
    startup options_abc = Started cfg
    /\ (forall s, serviceIds options_abc = Some s ->
        filterServiceIds cfg = map Js.parseInt (Js.split_comma s))
    /\ (forall s, eventIds options_abc = Some s ->
        filterEventIds cfg = map Js.parseInt (Js.split_comma s))
    /\ (forall TsChar_decode dayjs_local_format ts,
        main TsChar_decode dayjs_local_format options_abc ts
        = Some (Log separator
                  :: process TsChar_decode dayjs_local_format cfg ts)).
Proof.
  apply (proj1 (C8_identifiers_are_not_validated options_abc "in.ts" eq_refl)).
Defined.

(** C8 fails as stated: with [--service-ids abc] the entry is not a
    number, yet startup reports no error, the list becomes [[NaN]], and a
    TOT section that follows is processed and printed. *)
Lemma C8_non_numeric_entry_is_accepted :
  has_non_numeric_entry options_abc = true
  /\ startup options_abc
     = Started {| filterEitTypes := [];
                  filterServiceIds := [Js.NaN];
                  filterEventIds := [] |}
  /\ startup options_abc <> ConfigError
  /\ main ascii_decoder plain_format options_abc [TOT tot_sample]
     = Some [Log separator;
             Log "TOT (Time Offset Table)"; Log separator;
             DirTot {| f_tot_table_id := 0x73; f_JST_time := "49273T12:45:0" |};
             Log separator].
Proof.
  repeat split. discriminate.
Qed.

(** ** Further properties of [range] *)

Lemma filter_keeps_all {A : Type} (f : A -> bool) (xs : list A) :
  (forall x, In x xs -> f x = true) -> filter f xs = xs.
Proof.
  induction xs as [|x xs IH]; simpl; intros H; [reflexivity|].
  rewrite (H x (or_introl eq_refl)). f_equal. apply IH. intros y Hy.
  apply H. now right.
Qed.

(** X1.  On arguments [range] accepts (fewer than 2^32 slots, bounds
    below 2^52 in size), with step 1 the filter of [range] removes
    nothing: the result is the run of [|s - t|] consecutive integers that
    starts at the smaller bound, and the order of the two bounds does not
    matter. *)
Theorem range_step1_consecutive (s t : Z) :
  range_arguments s t 1 ->
  range s t 1
  = map (fun i => Z.min s t + Z.of_nat i) (seq 0 (Z.abs_nat (s - t)))
  /\ List.length (range s t 1) = Z.abs_nat (s - t)
  /\ range s t 1 = range t s 1.
Proof.
  intros _.
  assert (E : forall s t,
             range s t 1
             = map (fun i => Z.min s t + Z.of_nat i)
                 (seq 0 (Z.abs_nat (s - t)))).
  { intros s' t'. unfold range. rewrite filter_keeps_all.
    - apply map_ext. intros i. lia.
    - intros x Hx. apply in_map_iff in Hx. destruct Hx as [i [<- Hi]].
      apply in_seq in Hi. apply Z.ltb_lt. lia. }
  split; [apply E|]. split.
  - rewrite E, length_map, length_seq. reflexivity.
  - rewrite (E s t), (E t s), (Z.min_comm t s).
    replace (Z.abs_nat (t - s)) with (Z.abs_nat (s - t)) by lia.
    reflexivity.
Qed.

Lemma range_step1_consecutive_witness :
  range 0x50 0x60 1
  = map (fun i => Z.min 0x50 0x60 + Z.of_nat i) (seq 0 (Z.abs_nat (0x50 - 0x60)))
  /\ List.length (range 0x50 0x60 1) = Z.abs_nat (0x50 - 0x60)
  /\ range 0x50 0x60 1 = range 0x60 0x50 1.
Proof.
  apply (range_step1_consecutive 0x50 0x60).
  unfold range_arguments. lia.
Defined.

(** X2.  On arguments [range] accepts, with a step of at least 1, [range]
    holds exactly the integers [min(s,t) + k*a], [k >= 0], that are below
    [max(s,t)]. *)
Theorem range_positive_step (s t a x : Z) :
  range_arguments s t a ->
  1 <= a ->
  (In x (range s t a)
   <-> exists k, 0 <= k /\ x = Z.min s t + k * a /\ x < Z.max s t).
Proof.
  intros _ Ha. unfold range. rewrite filter_In, in_map_iff, Z.ltb_lt. split.
  - intros [[i [Hx Hi]] Hlt]. exists (Z.of_nat i). lia.
  - intros [k [Hk [Hx Hlt]]]. split; [|assumption].
    exists (Z.to_nat k). split; [lia|].
    apply in_seq. split; [lia|]. simpl.
    assert (k <= k * a) by nia. lia.
Qed.

Lemma range_positive_step_witness :
  In 0x52 (range 0x50 0x60 2)
  <-> exists k, 0 <= k /\ 0x52 = Z.min 0x50 0x60 + k * 2 /\ 0x52 < Z.max 0x50 0x60.
Proof.
  apply (range_positive_step 0x50 0x60 2 0x52).
  - unfold range_arguments. lia.
  - lia.
Defined.

(** X3.  On arguments [range] accepts, with a step of 0 or less the filter
    removes nothing either: all [|s - t|] slots are kept, and they run
    downwards from the smaller bound, never from the larger one. *)
Theorem range_nonpositive_step (s t a : Z) :
  range_arguments s t a ->
  a <= 0 ->
  range s t a
  = map (fun i => Z.min s t + Z.of_nat i * a) (seq 0 (Z.abs_nat (s - t)))
  /\ forall x, In x (range s t a) -> x <= Z.min s t.
Proof.
  intros _ Ha.
  assert (E : range s t a
              = map (fun i => Z.min s t + Z.of_nat i * a)
                  (seq 0 (Z.abs_nat (s - t)))).
  { unfold range. apply filter_keeps_all.
    intros x Hx. apply in_map_iff in Hx. destruct Hx as [i [<- Hi]].
    apply in_seq in Hi. apply Z.ltb_lt.
    assert (Z.of_nat i * a <= 0) by nia. lia. }
  split; [exact E|].
  intros x Hx. rewrite E in Hx. apply in_map_iff in Hx.
  destruct Hx as [i [<- _]]. assert (Z.of_nat i * a <= 0) by nia. lia.
Qed.

Lemma range_nonpositive_step_witness :
  range 0 3 (-1)
  = map (fun i => Z.min 0 3 + Z.of_nat i * (-1)) (seq 0 (Z.abs_nat (0 - 3)))
  /\ forall x, In x (range 0 3 (-1)) -> x <= Z.min 0 3.
Proof.
  apply (range_nonpositive_step 0 3 (-1)).
  - unfold range_arguments. lia.
  - lia.
Defined.

(** ** Further properties of the identifier lists *)

(** [parseInt] reads the sign first and the digits after it. *)
Lemma parseInt_sign (s : string) :
  Js.parseInt s
  = match Js.trimStart s with
    | String "-" r => parseInt_unsigned (-1) r
    | String "+" r => parseInt_unsigned 1 r
    | s1 => parseInt_unsigned 1 s1
    end.
Proof.
  unfold Js.parseInt, parseInt_unsigned.
  destruct (Js.trimStart s) as [|[[] [] [] [] [] [] [] []] r]; reflexivity.
Qed.

(** Digits read after a positive accumulator. *)
Lemma parseDigits_acc (d : Decimal.uint) (rest : string) (acc : positive) :
  Js.parseDigits 10 (NilEmpty.string_of_uint d ++ rest) (Some (Zpos acc))
  = Js.parseDigits 10 rest (Some (Zpos (Pos.of_uint_acc d acc))).
Proof.
  revert acc.
  induction d as [|d IH|d IH|d IH|d IH|d IH|d IH|d IH|d IH|d IH|d IH];
    intros acc; [reflexivity|..];
    read_digit; rewrite <- IH; do 2 f_equal; lia.
Qed.

(** Digits read after an accumulator that is still 0. *)
Lemma parseDigits_zero (d : Decimal.uint) (rest : string) :
  Js.parseDigits 10 (NilEmpty.string_of_uint d ++ rest) (Some 0)
  = Js.parseDigits 10 rest (Some (Z.of_N (Pos.of_uint d))).
Proof.
  induction d as [|d IH|d IH|d IH|d IH|d IH|d IH|d IH|d IH|d IH|d IH];
    [reflexivity | read_digit; exact IH | ..];
    read_digit; exact (parseDigits_acc d rest _).
Qed.

(** The first digits of a number. *)
Lemma parseDigits_none (d : Decimal.uint) (rest : string) :
  d <> Decimal.Nil ->
  Js.parseDigits 10 (NilEmpty.string_of_uint d ++ rest) None
  = Js.parseDigits 10 rest (Some (Z.of_N (Pos.of_uint d))).
Proof.
  destruct d as [|d|d|d|d|d|d|d|d|d|d]; intros Hd;
    [congruence | read_digit; exact (parseDigits_zero d rest) | ..];
    read_digit; exact (parseDigits_acc d rest _).
Qed.

(** Text that ends a number stops the digits. *)
Lemma parseDigits_end (rest : string) (v : Z) :
  ends_number rest = true -> Js.parseDigits 10 rest (Some v) = Some v.
Proof.
  destruct rest as [|c r]; [reflexivity|].
  unfold ends_number, is_decimal_digit. intros H.
  apply andb_true_iff in H. destruct H as [H _].
  apply andb_true_iff in H. destruct H as [H _].
  apply negb_true_iff in H.
  cbn [Js.parseDigits]. unfold Js.digitValue. rewrite H.
  set (n := Z.of_N (N_of_ascii c)).
  destruct ((97 <=? n) && (n <=? 122)) eqn:Hl.
  - apply andb_true_iff in Hl. destruct Hl as [Hl _]. apply Z.leb_le in Hl.
    destruct (Z.ltb_spec (n - 97 + 10) 10); [lia | reflexivity].
  - destruct ((65 <=? n) && (n <=? 90)) eqn:Hu; [|reflexivity].
    apply andb_true_iff in Hu. destruct Hu as [Hu _]. apply Z.leb_le in Hu.
    destruct (Z.ltb_spec (n - 65 + 10) 10); [lia | reflexivity].
Qed.

(** Without a [0x] in front the digits are read in radix 10. *)
Lemma parseInt_unsigned_decimal (sign : Z) (s2 : string) :
  (forall r, s2 <> String "0" (String "x" r)) ->
  (forall r, s2 <> String "0" (String "X" r)) ->
  parseInt_unsigned sign s2
  = match Js.parseDigits 10 s2 None with
    | None => Js.NaN
    | Some m => Js.Int (sign * m)
    end.
Proof.
  intros Hx HX. unfold parseInt_unsigned.
  destruct s2 as [|c0 [|c1 r]]; [reflexivity| |].
  - destruct c0 as [[] [] [] [] [] [] [] []]; reflexivity.
  - destruct (Ascii.eqb_spec c0 "0") as [->|H0].
    + destruct (Ascii.eqb_spec c1 "x") as [->|H1]; [now destruct (Hx r)|].
      destruct (Ascii.eqb_spec c1 "X") as [->|H2]; [now destruct (HX r)|].
      destruct c1 as [[] [] [] [] [] [] [] []];
        try reflexivity; congruence.
    + destruct c0 as [[] [] [] [] [] [] [] []];
        try reflexivity; congruence.
Qed.

(** The digits of a decimal numeral, followed by text that ends a number,
    read as that numeral. *)
Lemma parseInt_unsigned_uint (sign : Z) (d : Decimal.uint) (suffix : string) :
  d <> Decimal.Nil -> ends_number suffix = true ->
  parseInt_unsigned sign (NilEmpty.string_of_uint d ++ suffix)
  = Js.Int (sign * Z.of_N (Pos.of_uint d)).
Proof.
  intros Hd Hs. rewrite parseInt_unsigned_decimal.
  - now rewrite parseDigits_none, parseDigits_end.
  - intros r E. destruct d as [|[| | | | | | | | | |]| | | | | | | | |];
      try discriminate E; [congruence|].
    destruct suffix as [|c s]; [discriminate E|].
    cbn in E. injection E as -> _. discriminate Hs.
  - intros r E. destruct d as [|[| | | | | | | | | |]| | | | | | | | |];
      try discriminate E; [congruence|].
    destruct suffix as [|c s]; [discriminate E|].
    cbn in E. injection E as -> _. discriminate Hs.
Qed.

Lemma parseInt_uint (d : Decimal.uint) (suffix : string) :
  d <> Decimal.Nil -> ends_number suffix = true ->
  Js.parseInt (NilEmpty.string_of_uint d ++ suffix)
  = Js.Int (Z.of_N (Pos.of_uint d))
  /\ Js.parseInt (String "-" (NilEmpty.string_of_uint d ++ suffix))
     = Js.Int (- Z.of_N (Pos.of_uint d)).
Proof.
  intros Hd Hs.
  pose proof (parseInt_unsigned_uint 1 d suffix Hd Hs) as Hp.
  pose proof (parseInt_unsigned_uint (-1) d suffix Hd Hs) as Hm.
  rewrite !parseInt_sign. split.
  - rewrite Z.mul_1_l in Hp. rewrite <- Hp.
    destruct d; [congruence|..]; reflexivity.
  - replace (- Z.of_N (Pos.of_uint d)) with (-1 * Z.of_N (Pos.of_uint d)) by lia.
    rewrite <- Hm. reflexivity.
Qed.

Lemma Number_toString_digits (z : Z) :
  exists d,
    d <> Decimal.Nil /\ Z.of_N (Pos.of_uint d) = Z.abs z
    /\ Js.Number_toString z
       = if z <? 0 then String "-" (NilEmpty.string_of_uint d)
         else NilEmpty.string_of_uint d.
Proof.
  destruct z as [|p|p].
  - exists (Decimal.D0 Decimal.Nil). repeat split. discriminate.
  - exists (Pos.to_uint p). pose proof (DecimalPos.Unsigned.to_uint_nonnil p) as Hn.
    split; [assumption|]. split.
    + now rewrite DecimalPos.Unsigned.of_to.
    + unfold Js.Number_toString. simpl.
      unfold NilZero.string_of_uint. now destruct (Pos.to_uint p).
  - exists (Pos.to_uint p). pose proof (DecimalPos.Unsigned.to_uint_nonnil p) as Hn.
    split; [assumption|]. split.
    + now rewrite DecimalPos.Unsigned.of_to.
    + unfold Js.Number_toString. simpl.
      unfold NilZero.string_of_uint. now destruct (Pos.to_uint p).
Qed.

(** An integer in decimal, followed by text that ends a number, is read
    as that integer. *)
Lemma parseInt_Number_toString (z : Z) (suffix : string) :
  ends_number suffix = true ->
  Js.parseInt (Js.Number_toString z ++ suffix) = Js.Int z.
Proof.
  intros Hs. destruct (Number_toString_digits z) as [d [Hd [Hv ->]]].
  destruct (parseInt_uint d suffix Hd Hs) as [Hp Hm].
  destruct (Z.ltb_spec z 0) as [Hneg|Hpos].
  - cbn [append]. rewrite Hm, Hv. f_equal. lia.
  - rewrite Hp, Hv. f_equal. lia.
Qed.

(** X4.  [parseInt] reads back every integer below 2^53 in size from its
    decimal form, and it goes on reading it back when text that starts
    with no digit (and not with the [x] of a hexadecimal prefix) is glued
    to it: trailing text is ignored, not refused. *)
Theorem parseInt_reads_decimal_prefix (z : Z) (suffix : string) :
  safe_integer z ->
  ends_number suffix = true ->
  Js.parseInt (Js.Number_toString z ++ suffix) = Js.Int z.
Proof.
  intros _ Hs. rewrite <- (parseInt_Number_toString z suffix Hs). reflexivity.
Qed.

Lemma parseInt_reads_decimal_prefix_witness :
  Js.parseInt (Js.Number_toString 1024 ++ "abc") = Js.Int 1024.
Proof.
  apply (parseInt_reads_decimal_prefix 1024 "abc").
  - unfold safe_integer. lia.
  - reflexivity.
Defined.

Lemma split_comma_no_comma (x : string) :
  has_comma x = false -> Js.split_comma x = [x].
Proof.
  unfold has_comma. induction x as [|c r IH]; simpl; [reflexivity|].
  intros H. apply orb_false_iff in H. destruct H as [Hc Hr].
  rewrite Hc, (IH Hr). reflexivity.
Qed.

Lemma split_comma_app (x s : string) :
  has_comma x = false ->
  Js.split_comma (x ++ String "," s) = x :: Js.split_comma s.
Proof.
  unfold has_comma. induction x as [|c r IH]; simpl; [reflexivity|].
  intros H. apply orb_false_iff in H. destruct H as [Hc Hr].
  rewrite Hc, (IH Hr). reflexivity.
Qed.

(** Splitting what was typed with commas gives the entries back, as long
    as no entry holds a comma itself. *)
Lemma split_comma_comma_separated (entries : list string) :
  entries <> [] ->
  (forall x, In x entries -> has_comma x = false) ->
  Js.split_comma (comma_separated entries) = entries.
Proof.
  induction entries as [|x rest IH]; [congruence|]. intros _ H.
  destruct rest as [|y rest].
  - apply split_comma_no_comma. apply H. now left.
  - change (comma_separated (x :: y :: rest))
      with (x ++ String "," (comma_separated (y :: rest))).
    rewrite split_comma_app by (apply H; now left).
    rewrite IH; [reflexivity | discriminate |].
    intros z Hz. apply H. now right.
Qed.

Lemma has_comma_app (a b : string) :
  has_comma (a ++ b) = has_comma a || has_comma b.
Proof.
  unfold has_comma. induction a as [|c r IH]; simpl; [reflexivity|].
  now rewrite IH, orb_assoc.
Qed.

Lemma has_comma_uint (d : Decimal.uint) :
  has_comma (NilEmpty.string_of_uint d) = false.
Proof. induction d; simpl; auto. Qed.

Lemma has_comma_Number_toString (z : Z) :
  has_comma (Js.Number_toString z) = false.
Proof.
  destruct (Number_toString_digits z) as [d [_ [_ ->]]].
  destruct (z <? 0); [|apply has_comma_uint].
  unfold has_comma. simpl. apply has_comma_uint.
Qed.

(** The identifiers typed in decimal, each possibly followed by text that
    ends a number, are read as those identifiers. *)
Lemma identifier_list_read (entries : list (Z * string)) :
  entries <> [] ->
  (forall z sfx, In (z, sfx) entries ->
                 ends_number sfx = true /\ has_comma sfx = false) ->
  map Js.parseInt
    (Js.split_comma
       (comma_separated
          (map (fun e => Js.Number_toString (fst e) ++ snd e) entries)))
  = map (fun e => Js.Int (fst e)) entries.
Proof.
  intros Hne H. rewrite split_comma_comma_separated.
  - rewrite map_map. apply map_ext_in. intros [z sfx] Hin. simpl.
    apply parseInt_Number_toString. now apply (H z sfx).
  - destruct entries; [congruence | discriminate].
  - intros x Hx. apply in_map_iff in Hx. destruct Hx as [[z sfx] [<- Hin]].
    simpl. rewrite has_comma_app, has_comma_Number_toString.
    now apply (H z sfx).
Qed.

(** X5.  From the command line to the allow-lists.  When [--input] is given
    and an identifier option is a comma-separated list of decimal
    integers below 2^53 in size, each possibly followed by text that
    starts with no digit, no [x] and holds no comma, the allow-list is
    exactly those integers, in order; the trailing text is dropped without
    any error. *)
Theorem startup_reads_identifier_lists
    (o : options) (path : string) (entries : list (Z * string)) :
  input o = Some path ->
  entries <> [] ->
  (forall z sfx, In (z, sfx) entries ->
                 safe_integer z
                 /\ ends_number sfx = true /\ has_comma sfx = false) ->
  exists cfg,
    startup o = Started cfg
    /\ (serviceIds o
        = Some (comma_separated
                  (map (fun e => Js.Number_toString (fst e) ++ snd e) entries)) ->
        filterServiceIds cfg = map (fun e => Js.Int (fst e)) entries)
    /\ (eventIds o
        = Some (comma_separated
                  (map (fun e => Js.Number_toString (fst e) ++ snd e) entries)) ->
        filterEventIds cfg = map (fun e => Js.Int (fst e)) entries).
Proof.
  intros Hin Hne H. unfold startup. rewrite Hin. eexists.
  split; [reflexivity|]. split; intros ->; simpl;
    (apply identifier_list_read; [assumption|]);
    intros z sfx Hz; now destruct (H z sfx Hz).
Qed.

Lemma startup_reads_identifier_lists_witness :
  exists cfg,
    startup options_2048_4096 = Started cfg
    /\ (serviceIds options_2048_4096 = Some "2048,4096" ->
        filterServiceIds cfg = [Js.Int 2048; Js.Int 4096])
    /\ (eventIds options_2048_4096 = Some "2048,4096" ->
        filterEventIds cfg = [Js.Int 2048; Js.Int 4096]).
Proof.
  apply (startup_reads_identifier_lists options_2048_4096 "in.ts"
           [(2048, ""); (4096, "")] eq_refl).
  - discriminate.
  - intros z sfx [H|[H|[]]]; injection H as <- <-;
      (split; [unfold safe_integer; lia | split; reflexivity]).
Defined.

(** ** Further properties of the EIT handler *)

Lemma guard_off {A : Type} (xs : list A) (b : bool) :
  (0 <? Z.of_nat (List.length xs)) && negb b = false <-> xs = [] \/ b = true.
Proof.
  rewrite andb_false_iff, negb_false_iff. split; intros [H|H]; auto.
  - left. destruct xs as [|x xs]; [reflexivity|].
    assert (Hp : (0 <? Z.of_nat (List.length (x :: xs))) = true)
      by (apply length_positive; discriminate).
    congruence.
  - left. now subst.
Qed.

(** The flag of the event loop. *)
Lemma detected_true (cfg : config) (evs : list event) :
  detected cfg evs false = true
  <-> filterEventIds cfg <> []
      /\ exists ev, In ev evs /\ In (Js.Int (event_id ev)) (filterEventIds cfg).
Proof.
  unfold detected. simpl. rewrite andb_true_iff, length_positive, existsb_exists.
  split; intros [Hne [ev [Hin Hid]]]; (split; [assumption|]); exists ev;
    (split; [assumption|]); now apply includes_true.
Qed.

Lemma event_allowed_dec (cfg : config) (evs : list event) :
  event_allowed cfg evs \/ ~ event_allowed cfg evs.
Proof.
  unfold event_allowed. destruct (detected cfg evs false) eqn:Hd.
  - left. right. apply detected_true in Hd. tauto.
  - assert (Hn : ~ (filterEventIds cfg <> []
                    /\ exists ev, In ev evs
                         /\ In (Js.Int (event_id ev)) (filterEventIds cfg)))
      by (rewrite <- detected_true; congruence).
    destruct (filterEventIds cfg) as [|x xs].
    + left. now left.
    + right. intros [H|H]; [discriminate|].
      apply Hn. split; [discriminate | exact H].
Qed.

Section Acceptance.

Variable TsChar_decode : list byte -> string.
Variable dayjs_local_format : TsDate.datetime -> string.

(** The handler prints nothing, or the section has passed the three
    section-level filters and the tail of the handler decides. *)
Lemma on_eit_gates (cfg : config) (e : eit) :
  on_eit TsChar_decode dayjs_local_format cfg e = Ok []
  \/ exists evs,
       events e = Some evs
       /\ self_stream e /\ service_allowed cfg e /\ type_allowed cfg e
       /\ on_eit TsChar_decode dayjs_local_format cfg e
          = format_and_print TsChar_decode dayjs_local_format cfg e evs.
Proof.
  unfold on_eit, after_events_check, after_table_id_check,
    after_service_filter.
  destruct (events e) as [evs|]; [|now left].
  destruct (negb _ && negb _) eqn:H1; [now left|].
  destruct (_ && negb (Js.includes _ _)) eqn:H2; [now left|].
  destruct (_ && negb (Js.includesStr _ _)) eqn:H3; [now left|].
  right. exists evs. split; [reflexivity|].
  apply table_id_check in H1. apply guard_off in H2, H3.
  split; [exact H1|]. split; [|split; [|reflexivity]].
  - destruct H2 as [H2|H2]; [now left | right; now apply includes_true].
  - destruct H3 as [H3|H3]; [now left | right; now apply includesStr_true].
Qed.

(** The tail prints the record exactly when the event-id filter keeps the
    section. *)
Lemma format_and_print_prints (cfg : config) (e : eit) (evs : list event)
    (fevs : list formatted_event) :
  for_of (format_event TsChar_decode dayjs_local_format) evs = Ok fevs ->
  (event_allowed cfg evs ->
   format_and_print TsChar_decode dayjs_local_format cfg e evs
   = Ok (printed e fevs))
  /\ (~ event_allowed cfg evs ->
      format_and_print TsChar_decode dayjs_local_format cfg e evs = Ok []).
Proof.
  intros Hf. rewrite format_and_print_for_of, Hf. cbn [bind].
  pose proof (for_of_length _ _ _ Hf) as Hlen.
  pose proof (detected_true cfg evs) as Hd.
  unfold event_allowed. split.
  - intros [Hnil|[ev [Hin Hid]]].
    + rewrite Hnil. reflexivity.
    + assert (Hne : filterEventIds cfg <> [])
        by (intros Hnil; rewrite Hnil in Hid; destruct Hid).
      assert (Hdt : detected cfg evs false = true)
        by (apply Hd; split; [assumption | now exists ev]).
      rewrite Hdt, Hlen. simpl. rewrite andb_false_r.
      destruct evs; [destruct Hin|]. simpl.
      now rewrite andb_false_r.
  - intros Hno.
    destruct (filterEventIds cfg) as [|x xs] eqn:Hx; [exfalso; apply Hno; now left|].
    assert (Hdf : detected cfg evs false = false).
    { apply not_true_is_false. intros Ht. apply Hd in Ht.
      destruct Ht as [_ Hex]. apply Hno. right. exact Hex. }
    rewrite Hdf. simpl.
    destruct (Z.of_nat (List.length fevs) =? 0); reflexivity.
Qed.

End Acceptance.

(** X6.  The acceptance rule of the EIT handler, complete.  A section is
    printed, with its events formatted to [fevs], exactly when it has an
    event list that formats to [fevs] without error, its [table_id] is in
    [0x50, 0x60) or is 0x4E, the service filter and the type filter allow
    it, and the event-id filter is absent or matches one of its events. *)
Theorem on_eit_prints_iff
    (TsChar_decode : list byte -> string)
    (dayjs_local_format : TsDate.datetime -> string)
    (cfg : config) (e : eit) (fevs : list formatted_event) :
  on_eit TsChar_decode dayjs_local_format cfg e = Ok (printed e fevs)
  <-> exists evs,
        events e = Some evs
        /\ for_of (format_event TsChar_decode dayjs_local_format) evs = Ok fevs
        /\ self_stream e /\ service_allowed cfg e /\ type_allowed cfg e
        /\ event_allowed cfg evs.
Proof.
  split.
  - intros Hp.
    destruct (on_eit_gates TsChar_decode dayjs_local_format cfg e)
      as [H0|[evs [He [Hs [Hsv [Hty Ht]]]]]].
    + rewrite H0 in Hp. discriminate.
    + exists evs. rewrite Ht in Hp.
      destruct (for_of (format_event TsChar_decode dayjs_local_format) evs)
        as [fevs'|] eqn:Hf.
      * destruct (format_and_print_prints _ _ cfg e evs fevs' Hf) as [Hyes Hno].
        destruct (event_allowed_dec cfg evs) as [Hev|Hev];
          [|rewrite (Hno Hev) in Hp; discriminate].
        rewrite (Hyes Hev) in Hp.
        assert (fevs' = fevs)
          by (unfold printed, formattedEit in Hp; congruence).
        subst fevs'. repeat split; assumption.
      * rewrite format_and_print_for_of, Hf in Hp. discriminate.
  - intros [evs [He [Hf [Hs [Hsv [Hty Hev]]]]]].
    rewrite (on_eit_passes _ _ cfg e evs He Hs Hsv Hty).
    now apply (format_and_print_prints _ _ cfg e evs fevs Hf).
Qed.

(** X7.  Filters only hide.  Whatever a configuration lets the handler print
    for a section is what the handler prints for it with no filter at all:
    no filter changes the content of a record. *)
Theorem filters_never_alter_a_record
    (TsChar_decode : list byte -> string)
    (dayjs_local_format : TsDate.datetime -> string)
    (cfg : config) (e : eit) (out : list output) :
  on_eit TsChar_decode dayjs_local_format cfg e = Ok out ->
  out = []
  \/ on_eit TsChar_decode dayjs_local_format no_filter e = Ok out.
Proof.
  intros Hout.
  destruct (on_eit_gates TsChar_decode dayjs_local_format cfg e)
    as [H0|[evs [He [Hs [_ [_ Ht]]]]]].
  - left. rewrite H0 in Hout. now injection Hout.
  - rewrite Ht in Hout.
    destruct (for_of (format_event TsChar_decode dayjs_local_format) evs)
      as [fevs|] eqn:Hf.
    + destruct (format_and_print_prints _ _ cfg e evs fevs Hf) as [Hyes Hno].
      destruct (event_allowed_dec cfg evs) as [Hev|Hev].
      * right. rewrite (Hyes Hev) in Hout. injection Hout as <-.
        rewrite (on_eit_passes _ _ no_filter e evs He Hs
                   (or_introl eq_refl) (or_introl eq_refl)).
        apply (format_and_print_prints _ _ no_filter e evs fevs Hf).
        now left.
      * left. rewrite (Hno Hev) in Hout. now injection Hout.
    + rewrite format_and_print_for_of, Hf in Hout. discriminate.
Qed.

Lemma filters_never_alter_a_record_witness :
  printed eit_200_100 formatted_200_100 = []
  \/ on_eit ascii_decoder plain_format no_filter eit_200_100
     = Ok (printed eit_200_100 formatted_200_100).
Proof.
  apply (filters_never_alter_a_record ascii_decoder plain_format
           only_event_100 eit_200_100).
  reflexivity.
Defined.

(** ** Errors of the EIT handler *)

Lemma for_of_throws {A B : Type} (body : A -> result B) (xs : list A) :
  for_of body xs = TypeError <-> exists x, In x xs /\ body x = TypeError.
Proof.
  induction xs as [|x xs IH]; simpl.
  - split; [discriminate | intros [x [[] _]]].
  - destruct (body x) as [y|] eqn:Hx; simpl.
    + destruct (for_of body xs) as [ys|]; simpl.
      * split; [discriminate|].
        intros [z [[<-|Hz] Hb]]; [congruence|].
        assert (Hbad : Ok ys = TypeError) by (apply IH; now exists z).
        discriminate Hbad.
      * split; [|reflexivity]. intros _.
        destruct (proj1 IH eq_refl) as [z [Hz Hb]]. exists z. auto.
    + split; [|reflexivity]. intros _. exists x. auto.
Qed.

(** An extended event descriptor without its language code or without
    its items stops the descriptor loop. *)
Lemma format_descriptor_extended_throws
    (TsChar_decode : list byte -> string) (d : descriptor) :
  descriptor_tag d = 0x4E ->
  ISO_639_language_code d = None \/ items d = None ->
  format_descriptor TsChar_decode d = TypeError.
Proof.
  intros Htag Hmiss. unfold format_descriptor. rewrite Htag. simpl.
  destruct Hmiss as [H|H]; rewrite H; [reflexivity|].
  now destruct (ISO_639_language_code d).
Qed.

(** X8.  A section that passes the table-id, service and type filters and
    holds, under any of its events, an extended event descriptor (tag
    0x4E) without [ISO_639_language_code] or without [items] makes the
    handler stop with an uncaught [TypeError] (lines 143 and 144 spread
    and iterate [undefined]).  The event-id allow-list cannot prevent it,
    whatever it holds: the fields are formatted before it is looked at. *)
Theorem malformed_extended_descriptor_throws
    (TsChar_decode : list byte -> string)
    (dayjs_local_format : TsDate.datetime -> string)
    (cfg : config) (e : eit) (evs : list event) (ev : event) (d : descriptor) :
  events e = Some evs ->
  self_stream e -> service_allowed cfg e -> type_allowed cfg e ->
  In ev evs -> In d (descriptors ev) ->
  descriptor_tag d = 0x4E ->
  ISO_639_language_code d = None \/ items d = None ->
  on_eit TsChar_decode dayjs_local_format cfg e = TypeError.
Proof.
  intros He Hs Hsv Hty Hev Hd Htag Hmiss.
  rewrite (on_eit_passes _ _ cfg e evs He Hs Hsv Hty).
  rewrite format_and_print_for_of.
  assert (Hthrow : for_of (format_event TsChar_decode dayjs_local_format) evs
                   = TypeError).
  { apply for_of_throws. exists ev. split; [assumption|].
    unfold format_event.
    assert (Hds : for_of (format_descriptor TsChar_decode) (descriptors ev)
                  = TypeError).
    { apply for_of_throws. exists d. split; [assumption|].
      now apply format_descriptor_extended_throws. }
    now rewrite Hds. }
  now rewrite Hthrow.
Qed.

Lemma malformed_extended_descriptor_throws_witness :
  on_eit ascii_decoder plain_format only_event_100 eit_400 = TypeError.
Proof.
  apply (malformed_extended_descriptor_throws ascii_decoder plain_format
           only_event_100 eit_400 [event_400] event_400
           extended_without_items eq_refl).
  - right. reflexivity.
  - left. reflexivity.
  - left. reflexivity.
  - left. reflexivity.
  - left. reflexivity.
  - reflexivity.
  - right. reflexivity.
Defined.

(** ** Allow-lists that allow nothing *)

Lemma process_without_eit_output
    (TsChar_decode : list byte -> string)
    (dayjs_local_format : TsDate.datetime -> string)
    (cfg : config) (ts : list table) :
  (forall e, on_eit TsChar_decode dayjs_local_format cfg e = Ok []) ->
  process TsChar_decode dayjs_local_format cfg ts
  = flat_map (on_tot dayjs_local_format) (tots ts).
Proof.
  intros H. induction ts as [|[e|t] ts IH]; simpl.
  - reflexivity.
  - rewrite H. exact IH.
  - now rewrite IH.
Qed.

(** X9.  A service-id option in which [parseInt] reads no number at all (a
    misspelt list, or an empty value) still switches the service filter
    on: every EIT section is dropped without a message, and the program
    prints its first rule and the TOT sections only. *)
Theorem non_numeric_service_list_hides_every_eit
    (TsChar_decode : list byte -> string)
    (dayjs_local_format : TsDate.datetime -> string)
    (o : options) (cfg : config) (s : string) :
  startup o = Started cfg ->
  serviceIds o = Some s ->
  forallb non_numeric (Js.split_comma s) = true ->
  (forall e, on_eit TsChar_decode dayjs_local_format cfg e = Ok [])
  /\ (forall ts,
        main TsChar_decode dayjs_local_format o ts
        = Some (Log separator
                  :: flat_map (on_tot dayjs_local_format) (tots ts))).
Proof.
  intros Hst Hs Hnon.
  assert (Hlist : filterServiceIds cfg = map Js.parseInt (Js.split_comma s)).
  { unfold startup in Hst. destruct (input o); [|discriminate].
    injection Hst as <-. simpl. now rewrite Hs. }
  assert (Hall : forall e,
             on_eit TsChar_decode dayjs_local_format cfg e = Ok []).
  { intros e. unfold on_eit, after_events_check.
    destruct (events e) as [evs|]; [|reflexivity].
    destruct (negb _ && negb _); [reflexivity|].
    apply service_filter_skips.
    - rewrite Hlist. pose proof (split_comma_not_nil s).
      destruct (Js.split_comma s); [congruence | discriminate].
    - rewrite Hlist. intros Hin. apply in_map_iff in Hin.
      destruct Hin as [entry [Hp Hentry]].
      rewrite forallb_forall in Hnon. specialize (Hnon entry Hentry).
      unfold non_numeric in Hnon. rewrite Hp in Hnon. discriminate. }
  split; [exact Hall|].
  intros ts. unfold main. rewrite Hst.
  now rewrite (process_without_eit_output _ _ cfg ts Hall).
Qed.

Lemma non_numeric_service_list_hides_every_eit_witness :
  (forall e,
     on_eit ascii_decoder plain_format
       {| filterEitTypes := []; filterServiceIds := [Js.NaN];
          filterEventIds := [] |} e = Ok [])
  /\ (forall ts,
        main ascii_decoder plain_format options_empty_service ts
        = Some (Log separator :: flat_map (on_tot plain_format) (tots ts))).
Proof.
  apply (non_numeric_service_list_hides_every_eit ascii_decoder plain_format
           options_empty_service _ "" eq_refl eq_refl).
  reflexivity.
Defined.

(** X10.  The type of a section is always one of the three names, compared
    with the allow-list as written: a type option that holds none of the
    three names (a misspelt one, or an empty value) drops every EIT
    section. *)
Theorem unknown_type_names_hide_every_eit
    (TsChar_decode : list byte -> string)
    (dayjs_local_format : TsDate.datetime -> string)
    (cfg : config) (e : eit) :
  In (eitType e) type_names
  /\ (filterEitTypes cfg <> [] ->
      (forall name, In name type_names -> ~ In name (filterEitTypes cfg)) ->
      on_eit TsChar_decode dayjs_local_format cfg e = Ok []).
Proof.
  assert (Hin : In (eitType e) type_names).
  { unfold eitType, type_names.
    destruct (table_id e =? 0x4E); [destruct (section_number e =? 0)|];
      simpl; auto. }
  split; [exact Hin|]. intros Hne Hnone.
  unfold on_eit, after_events_check, after_table_id_check.
  destruct (events e) as [evs|]; [|reflexivity].
  destruct (negb _ && negb _); [reflexivity|].
  destruct (_ && negb (Js.includes _ _)); [reflexivity|].
  apply type_filter_skips; [assumption|]. now apply Hnone.
Qed.

Lemma unknown_type_names_hide_every_eit_witness :
  on_eit ascii_decoder plain_format
    {| filterEitTypes := ["Present"]; filterServiceIds := [];
       filterEventIds := [] |} eit_200_100 = Ok [].
Proof.
  apply (proj2 (unknown_type_names_hide_every_eit ascii_decoder plain_format
                  {| filterEitTypes := ["Present"]; filterServiceIds := [];
                     filterEventIds := [] |} eit_200_100)).
  - discriminate.
  - simpl. intros name [<-|[<-|[<-|[]]]] [H|[]]; discriminate.
Defined.

(** ** Further properties of the descriptor loop *)

(** One byte through both conversions. *)
Lemma twice_converted_byte (b : byte) :
  ascii_of_N (Z.to_N (Js.ToUint16 (Js.ToNumber (Js.AChar (ascii_of_byte b)))))
  = twice_converted b.
Proof. destruct b; reflexivity. Qed.

Lemma twice_converted_fixes_only_NUL (b : byte) :
  twice_converted b = ascii_of_byte b -> b = x00.
Proof. destruct b; intros H; try reflexivity; discriminate H. Qed.

(** X11.  Outside tag 0x4E the language code survives formatting: the string
    in the dump has exactly the bytes of the raw code as its character
    codes, so the raw code can be read back from it. *)
Theorem language_code_round_trip
    (TsChar_decode : list byte -> string)
    (d : descriptor) (fd : formatted_descriptor) (code : list byte) :
  descriptor_tag d <> 0x4E ->
  ISO_639_language_code d = Some code ->
  format_descriptor TsChar_decode d = Ok fd ->
  exists s,
    f_ISO_639_language_code fd = Some (Text s)
    /\ list_byte_of_string s = code.
Proof.
  intros Htag Hcode Hfd. exists (string_of_list_byte code). split.
  - exact (language_code_other_tags _ d fd code Htag Hcode Hfd).
  - apply list_byte_of_string_of_list_byte.
Qed.

Lemma language_code_round_trip_witness :
  exists s,
    f_ISO_639_language_code
      {| f_descriptor_tag := 0x4D;
         f_ISO_639_language_code := Some (Text "JPN");
         f_text_char := Some (Text "A");
         f_event_name_char := Some (Text "B");
         f_items := None |} = Some (Text s)
    /\ list_byte_of_string s = [x4a; x50; x4e].
Proof.
  apply (language_code_round_trip ascii_decoder short_event_JPN _
           [x4a; x50; x4e]).
  - discriminate.
  - reflexivity.
  - reflexivity.
Defined.

(** X12.  Under tag 0x4E the language code does not survive: every byte is
    replaced by the character of code 0, except the digits 1 to 9, which
    become the characters of codes 1 to 9.  The dump therefore shows the
    raw code only when all its bytes are 0. *)
Theorem extended_language_code_is_lost
    (TsChar_decode : list byte -> string)
    (d : descriptor) (fd : formatted_descriptor) (code : list byte) :
  descriptor_tag d = 0x4E ->
  ISO_639_language_code d = Some code ->
  format_descriptor TsChar_decode d = Ok fd ->
  f_ISO_639_language_code fd
  = Some (Text (string_of_list_ascii (map twice_converted code)))
  /\ ((exists b, In b code /\ b <> x00) ->
      f_ISO_639_language_code fd <> Some (Text (string_of_list_byte code))).
Proof.
  intros Htag Hcode Hfd.
  assert (E : f_ISO_639_language_code fd
              = Some (Text (string_of_list_ascii (map twice_converted code)))).
  { rewrite (language_code_extended _ d fd code Htag Hcode Hfd).
    unfold Js.String_fromCharCode. rewrite !map_map.
    do 3 f_equal. apply map_ext. intros b. apply twice_converted_byte. }
  split; [exact E|].
  intros [b [Hin Hb]] Heq. rewrite E in Heq. injection Heq as Heq.
  unfold string_of_list_byte in Heq.
  apply (f_equal list_ascii_of_string) in Heq.
  rewrite !list_ascii_of_string_of_list_ascii in Heq.
  apply Hb. clear -Hin Heq.
  induction code as [|c code IH]; [destruct Hin|].
  simpl in Heq. injection Heq as Hc Hrest.
  destruct Hin as [->|Hin].
  - now apply twice_converted_fixes_only_NUL.
  - now apply IH.
Qed.

Lemma extended_language_code_is_lost_witness :
  f_ISO_639_language_code
    {| f_descriptor_tag := 0x4E;
       f_ISO_639_language_code := Some (Text three_NUL);
       f_text_char := Some (Text "A");
       f_event_name_char := None;
       f_items := Some [] |}
  = Some (Text (string_of_list_ascii (map twice_converted [x4a; x50; x4e])))
  /\ ((exists b, In b [x4a; x50; x4e] /\ b <> x00) ->
      f_ISO_639_language_code
        {| f_descriptor_tag := 0x4E;
           f_ISO_639_language_code := Some (Text three_NUL);
           f_text_char := Some (Text "A");
           f_event_name_char := None;
           f_items := Some [] |}
      <> Some (Text (string_of_list_byte [x4a; x50; x4e]))).
Proof.
  apply (extended_language_code_is_lost ascii_decoder extended_event_JPN _
           [x4a; x50; x4e]); reflexivity.
Defined.

Lemma format_items_decoded
    (TsChar_decode : list byte -> string) (its : list item) :
  Forall2
    (fun i fi =>
       f_item_description_char fi
       = Text (TsChar_decode (item_description_char i))
       /\ f_item_char fi = Text (TsChar_decode (item_char i)))
    its (map (format_item TsChar_decode) its).
Proof.
  induction its as [|i its IH]; simpl; constructor; [|exact IH].
  split; reflexivity.
Qed.

(** What formatting keeps of a descriptor, and what it decodes. *)
Lemma format_descriptor_shape
    (TsChar_decode : list byte -> string)
    (d : descriptor) (fd : formatted_descriptor) :
  format_descriptor TsChar_decode d = Ok fd ->
  f_descriptor_tag fd = descriptor_tag d
  /\ f_text_char fd
     = option_map (fun bs => Text (TsChar_decode bs)) (text_char d)
  /\ (descriptor_tag d = 0x4D ->
      forall name,
        event_name_char d = Some name ->
        f_event_name_char fd = Some (Text (TsChar_decode name)))
  /\ (descriptor_tag d = 0x4E ->
      forall its,
        items d = Some its ->
        exists fits,
          f_items fd = Some fits
          /\ Forall2
               (fun i fi =>
                  f_item_description_char fi
                  = Text (TsChar_decode (item_description_char i))
                  /\ f_item_char fi = Text (TsChar_decode (item_char i)))
               its fits).
Proof.
  unfold format_descriptor.
  destruct (descriptor_tag d =? 0x4D) eqn:T1.
  - apply Z.eqb_eq in T1.
    intros [= <-]. simpl. split; [reflexivity|]. split; [|split].
    + now destruct (text_char d).
    + intros _ name ->. reflexivity.
    + intros T2. rewrite T1 in T2. discriminate.
  - apply Z.eqb_neq in T1.
    destruct (descriptor_tag d =? 0x4E) eqn:T2.
    + destruct (ISO_639_language_code d); simpl; [|discriminate].
      destruct (items d) as [its|]; simpl; [|discriminate].
      intros [= <-]. simpl. split; [reflexivity|]. split; [|split].
      * now destruct (text_char d).
      * intros T. contradiction.
      * intros _ its' [= <-]. exists (map (format_item TsChar_decode) its).
        split; [reflexivity | apply format_items_decoded].
    + apply Z.eqb_neq in T2. intros [= <-]. simpl.
      split; [reflexivity|]. split; [|split].
      * now destruct (text_char d).
      * intros T. contradiction.
      * intros T. contradiction.
Qed.

(** X13.  Every printed record has the shape of its section through all
    three loops: the events of the dump are the events of the section, one
    for one with the same [event_id]; under each of them the descriptors
    are those of the event, one for one with the same tag; [text_char] is
    replaced by its decoded text wherever it is present; the event name a
    short event descriptor carries is replaced by its decoded text; and
    the items an extended event descriptor carries are kept one for one,
    in order, both fields of each replaced by their decoded text. *)
Theorem dump_keeps_the_shape_of_the_section
    (TsChar_decode : list byte -> string)
    (dayjs_local_format : TsDate.datetime -> string)
    (cfg : config) (e : eit) (out : list output) (t : formatted_eit) :
  on_eit TsChar_decode dayjs_local_format cfg e = Ok out ->
  In (DirEit t) out ->
  f_table_id t = table_id e /\ f_service_id t = service_id e
  /\ f_section_number t = section_number e
  /\ exists evs,
       events e = Some evs
       /\ Forall2
            (fun ev fev =>
               f_event_id fev = event_id ev
               /\ Forall2
                    (fun d fd =>
                       f_descriptor_tag fd = descriptor_tag d
                       /\ f_text_char fd
                          = option_map (fun bs => Text (TsChar_decode bs))
                              (text_char d)
                       /\ (descriptor_tag d = 0x4D ->
                           forall name,
                             event_name_char d = Some name ->
                             f_event_name_char fd = Some (Text (TsChar_decode name)))
                       /\ (descriptor_tag d = 0x4E ->
                           forall its,
                             items d = Some its ->
                             exists fits,
                               f_items fd = Some fits
                               /\ Forall2
                                    (fun i fi =>
                                       f_item_description_char fi
                                       = Text (TsChar_decode (item_description_char i))
                                       /\ f_item_char fi
                                          = Text (TsChar_decode (item_char i)))
                                    its fits))
                    (descriptors ev) (f_descriptors fev))
            evs (f_events t).
Proof.
  intros Hout Hin.
  destruct (on_eit_printed _ _ cfg e out t Hout Hin)
    as [evs [fevs [He [Hf [-> _]]]]].
  simpl. split; [reflexivity|]. split; [reflexivity|].
  split; [reflexivity|]. exists evs. split; [assumption|].
  apply for_of_Forall2 in Hf.
  eapply Forall2_impl; [|exact Hf].
  intros ev fev Hev. simpl in Hev. split.
  - exact (format_event_id _ _ _ _ Hev).
  - pose proof (format_event_descriptors _ _ _ _ Hev) as Hds.
    apply for_of_Forall2 in Hds.
    eapply Forall2_impl; [|exact Hds].
    intros d fd Hd. now apply format_descriptor_shape.
Qed.

Lemma dump_keeps_the_shape_of_the_section_witness :
  f_table_id (formattedEit eit_200_100 formatted_200_100)
  = table_id eit_200_100
  /\ f_service_id (formattedEit eit_200_100 formatted_200_100)
     = service_id eit_200_100
  /\ f_section_number (formattedEit eit_200_100 formatted_200_100)
     = section_number eit_200_100
  /\ exists evs,
       events eit_200_100 = Some evs
       /\ Forall2
            (fun ev fev =>
               f_event_id fev = event_id ev
               /\ Forall2
                    (fun d fd =>
                       f_descriptor_tag fd = descriptor_tag d
                       /\ f_text_char fd
                          = option_map (fun bs => Text (ascii_decoder bs))
                              (text_char d)
                       /\ (descriptor_tag d = 0x4D ->
                           forall name,
                             event_name_char d = Some name ->
                             f_event_name_char fd = Some (Text (ascii_decoder name)))
                       /\ (descriptor_tag d = 0x4E ->
                           forall its,
                             items d = Some its ->
                             exists fits,
                               f_items fd = Some fits
                               /\ Forall2
                                    (fun i fi =>
                                       f_item_description_char fi
                                       = Text (ascii_decoder (item_description_char i))
                                       /\ f_item_char fi
                                          = Text (ascii_decoder (item_char i)))
                                    its fits))
                    (descriptors ev) (f_descriptors fev))
            evs (f_events (formattedEit eit_200_100 formatted_200_100)).
Proof.
  apply (dump_keeps_the_shape_of_the_section ascii_decoder plain_format
           no_filter eit_200_100
           (printed eit_200_100 formatted_200_100)
           (formattedEit eit_200_100 formatted_200_100)
           eq_refl
           (or_intror (or_intror (or_introl eq_refl)))).
Defined.

(** ** From the command line to the service filter *)

Lemma append_empty (s : string) : s ++ "" = s.
Proof. induction s as [|c s IH]; simpl; [reflexivity | now rewrite IH]. Qed.

(** X14.  End to end: with [--input] given and [--service-ids] a comma-separated
    list of decimal integers, the handler prints nothing for a section
    whose [service_id] is not one of them, and the service filter lets
    through every section whose [service_id] is one of them. *)
Theorem service_option_selects_listed_services
    (TsChar_decode : list byte -> string)
    (dayjs_local_format : TsDate.datetime -> string)
    (o : options) (path : string) (ids : list Z) :
  input o = Some path ->
  ids <> [] ->
  serviceIds o = Some (comma_separated (map Js.Number_toString ids)) ->
  exists cfg,
    startup o = Started cfg
    /\ forall e,
         (~ In (service_id e) ids ->
          on_eit TsChar_decode dayjs_local_format cfg e = Ok [])
         /\ (In (service_id e) ids ->
             forall evs,
             after_table_id_check TsChar_decode dayjs_local_format cfg e evs
             = after_service_filter TsChar_decode dayjs_local_format cfg e evs).
Proof.
  intros Hin Hne Hs.
  assert (Hread : map Js.parseInt
                    (Js.split_comma
                       (comma_separated (map Js.Number_toString ids)))
                  = map Js.Int ids).
  { pose proof (identifier_list_read (map (fun z => (z, "")) ids)) as H.
    rewrite !map_map in H. simpl in H.
    replace (map (fun z => Js.Number_toString z ++ "") ids)
      with (map Js.Number_toString ids) in H
      by (apply map_ext; intros z; now rewrite append_empty).
    apply H.
    - destruct ids; [congruence | discriminate].
    - intros z sfx Hz. apply in_map_iff in Hz.
      destruct Hz as [z' [[= _ <-] _]]. split; reflexivity. }
  assert (Hcfg : exists cfg,
             startup o = Started cfg
             /\ filterServiceIds cfg = map Js.Int ids).
  { unfold startup. rewrite Hin, Hs. eexists.
    split; [reflexivity | exact Hread]. }
  destruct Hcfg as [cfg [Hst Hlist]].
  exists cfg. split; [assumption|].
  intros e. split.
  - intros Hnot. unfold on_eit, after_events_check.
    destruct (events e) as [evs|]; [|reflexivity].
    destruct (negb _ && negb _); [reflexivity|].
    apply service_filter_skips.
    + rewrite Hlist. destruct ids; [congruence | discriminate].
    + rewrite Hlist. intros Hi. apply in_map_iff in Hi.
      destruct Hi as [z [[= ->] Hz]]. contradiction.
  - intros Hi evs. apply service_filter_passes. right.
    rewrite Hlist. now apply in_map.
Qed.

Lemma service_option_selects_listed_services_witness :
  exists cfg,
    startup options_2048_4096 = Started cfg
    /\ forall e,
         (~ In (service_id e) [2048; 4096] ->
          on_eit ascii_decoder plain_format cfg e = Ok [])
         /\ (In (service_id e) [2048; 4096] ->
             forall evs,
             after_table_id_check ascii_decoder plain_format cfg e evs
             = after_service_filter ascii_decoder plain_format cfg e evs).
Proof.
  apply (service_option_selects_listed_services ascii_decoder plain_format
           options_2048_4096 "in.ts" [2048; 4096] eq_refl).
  - discriminate.
  - reflexivity.
Defined.
